(** * SMART FLOW v2: the signal controllers and the multi-intersection
      coordinator, embedded from

      - [src/models.py]                        ([SignalState], [PhaseType], [SignalPhase])
      - [src/signal_controller.py]             ([SignalController])
      - [src/advanced_signal_controller.py]    ([AdvancedSignalController])
      - [src/multi_intersection_coordinator.py] ([MultiIntersectionCoordinator])

    Conventions of the embedding.

    - Python [float] values are rationals ([Q]) compared with [==]; Python
      [int] values are [Z].  Rounding of binary floating point is not
      modelled, the concrete inputs used below are exactly representable.
    - Every [time.time()] read of the source is an explicit argument of the
      embedded method, in the order of the reads.
    - A method that can raise returns a [result]; the exception is named.
    - [dict]s that are only looked up and updated are [gmap]s; [dict]s whose
      iteration order decides the outcome ([lane_data], [green_times],
      [vehicle_types]) are association lists in insertion order. *)

From Stdlib Require Import ZArith QArith Qround Lia Lqa.
From stdpp Require Import gmap strings list fin_maps sorting.

Close Scope Q_scope.
Close Scope Z_scope.

(** ** Exceptions *)

Inductive exn := KeyError | ZeroDivisionError | ValueError | TypeError.

Inductive result (A : Type) :=
| Ok (a : A)
| Raise (e : exn).
Arguments Ok {A} a.
Arguments Raise {A} e.

Global Instance result_ret : MRet result := λ A a, Ok a.
Global Instance result_bind : MBind result := λ A B k r,
  match r with
  | Ok a => k a
  | Raise e => Raise e
  end.

Definition is_ok {A} (r : result A) : bool :=
  match r with Ok _ => true | Raise _ => false end.

(** ** Rational helpers (Python float operators) *)

Module PyFloat.

Definition ltb (x y : Q) : bool := negb (Qle_bool y x).
Definition leb (x y : Q) : bool := Qle_bool x y.
Definition eqb (x y : Q) : bool := Qeq_bool x y.

(** Python's [max(a, b)] returns [b] when [b > a] and [a] otherwise;
    [min(a, b)] returns [b] when [b < a]. *)
Definition max (a b : Q) : Q := if ltb a b then b else a.
Definition min (a b : Q) : Q := if ltb b a then b else a.

(** [int(x)]: truncation toward zero. *)
Definition trunc (x : Q) : Z :=
  if ltb x 0 then Qceiling x else Qfloor x.

(** [x % c] on floats: the result has the sign of the divisor; the caller
    checks [c] against zero. *)
Definition fmod (x c : Q) : Q := (x - c * inject_Z (Qfloor (x / c)))%Q.

End PyFloat.

(** ** [src/models.py] *)

Inductive SignalState := RED | YELLOW | GREEN.

Global Instance SignalState_eq_dec : EqDecision SignalState.
Proof. solve_decision. Defined.

Inductive PhaseType :=
| THROUGH | PROTECTED_LEFT | PROTECTED_RIGHT | PERMISSIVE_TURN
| PEDESTRIAN | EMERGENCY.

Global Instance PhaseType_eq_dec : EqDecision PhaseType.
Proof. solve_decision. Defined.

Record SignalPhase := mkPhase {
  phase_type : PhaseType;
  lanes : list string;
  duration : Q;
  state : SignalState
}.

(** ** Dataclasses of [src/advanced_signal_controller.py] *)

Record StateTransition := mkTransition {
  lane : string;
  old_state : SignalState;
  new_state : SignalState;
  timestamp : Q
}.

Record SignalPlan := mkPlan {
  phases : list SignalPhase;
  total_cycle_time : Q;
  emergency_override : bool
}.

Record SignalConfig := mkConfig {
  min_green : Z;
  max_green : Z;
  yellow_duration : Z;
  min_cycle_time : Z;
  max_cycle_time : Z;
  fairness_threshold : Q;
  fairness_boost_factor : Q
}.

(** [SignalConfig()] with the dataclass defaults. *)
Definition default_config : SignalConfig :=
  {| min_green := 10; max_green := 60; yellow_duration := 3;
     min_cycle_time := 40; max_cycle_time := 180;
     fairness_threshold := 120; fairness_boost_factor := 3 # 2 |}.

Record LaneData := mkLaneData {
  vehicle_count : Z;
  queue_length : Q;
  wait_time : Q;
  vehicle_types : list (string * Z);
  has_emergency : bool;
  pedestrian_count : Z
}.

(** ** The controller object

    One record holds the fields of [SignalController.__init__] and of
    [AdvancedSignalController.__init__]; the subclass shares the base
    class's [_states], [_remaining_times], [_active_lane] and
    [_lane_queue]. *)

Record Controller := mkController {
  config : SignalConfig;
  (* SignalController *)
  _states : gmap string SignalState;
  _green_times : gmap string Z;
  _remaining_times : gmap string Q;
  _active_lane : option string;
  _lane_queue : list string;
  (* AdvancedSignalController *)
  _last_green_times : gmap string Q;
  _emergency_active : bool;
  _emergency_lane : option string;
  _emergency_start_time : option Q;
  _manual_override_active : bool;
  _manual_override_lane : option string;
  _manual_override_end_time : option Q;
  _current_plan : option SignalPlan;
  _current_phase_index : nat;
  _phase_start_time : Q;
  _pending_pedestrian_phases : list (string * Z);
  _pending_turn_phases : list (string * PhaseType * Z);
  _transition_history : list StateTransition
}.

(** [AdvancedSignalController(config)]. *)
Definition init (cfg : SignalConfig) : Controller :=
  {| config := cfg;
     _states := ∅; _green_times := ∅; _remaining_times := ∅;
     _active_lane := None; _lane_queue := [];
     _last_green_times := ∅;
     _emergency_active := false; _emergency_lane := None;
     _emergency_start_time := None;
     _manual_override_active := false; _manual_override_lane := None;
     _manual_override_end_time := None;
     _current_plan := None; _current_phase_index := 0;
     _phase_start_time := 0;
     _pending_pedestrian_phases := []; _pending_turn_phases := [];
     _transition_history := [] |}.

(** Field updates ([self.f = v]). *)

Definition set_states (st : gmap string SignalState) (c : Controller) : Controller :=
  mkController (config c) st (_green_times c) (_remaining_times c)
    (_active_lane c) (_lane_queue c) (_last_green_times c)
    (_emergency_active c) (_emergency_lane c) (_emergency_start_time c)
    (_manual_override_active c) (_manual_override_lane c)
    (_manual_override_end_time c) (_current_plan c) (_current_phase_index c)
    (_phase_start_time c) (_pending_pedestrian_phases c)
    (_pending_turn_phases c) (_transition_history c).

Definition set_green_times (g : gmap string Z) (c : Controller) : Controller :=
  mkController (config c) (_states c) g (_remaining_times c)
    (_active_lane c) (_lane_queue c) (_last_green_times c)
    (_emergency_active c) (_emergency_lane c) (_emergency_start_time c)
    (_manual_override_active c) (_manual_override_lane c)
    (_manual_override_end_time c) (_current_plan c) (_current_phase_index c)
    (_phase_start_time c) (_pending_pedestrian_phases c)
    (_pending_turn_phases c) (_transition_history c).

Definition set_remaining_times (r : gmap string Q) (c : Controller) : Controller :=
  mkController (config c) (_states c) (_green_times c) r
    (_active_lane c) (_lane_queue c) (_last_green_times c)
    (_emergency_active c) (_emergency_lane c) (_emergency_start_time c)
    (_manual_override_active c) (_manual_override_lane c)
    (_manual_override_end_time c) (_current_plan c) (_current_phase_index c)
    (_phase_start_time c) (_pending_pedestrian_phases c)
    (_pending_turn_phases c) (_transition_history c).

Definition set_active_lane (a : option string) (c : Controller) : Controller :=
  mkController (config c) (_states c) (_green_times c) (_remaining_times c)
    a (_lane_queue c) (_last_green_times c)
    (_emergency_active c) (_emergency_lane c) (_emergency_start_time c)
    (_manual_override_active c) (_manual_override_lane c)
    (_manual_override_end_time c) (_current_plan c) (_current_phase_index c)
    (_phase_start_time c) (_pending_pedestrian_phases c)
    (_pending_turn_phases c) (_transition_history c).

Definition set_lane_queue (q : list string) (c : Controller) : Controller :=
  mkController (config c) (_states c) (_green_times c) (_remaining_times c)
    (_active_lane c) q (_last_green_times c)
    (_emergency_active c) (_emergency_lane c) (_emergency_start_time c)
    (_manual_override_active c) (_manual_override_lane c)
    (_manual_override_end_time c) (_current_plan c) (_current_phase_index c)
    (_phase_start_time c) (_pending_pedestrian_phases c)
    (_pending_turn_phases c) (_transition_history c).

Definition set_last_green_times (g : gmap string Q) (c : Controller) : Controller :=
  mkController (config c) (_states c) (_green_times c) (_remaining_times c)
    (_active_lane c) (_lane_queue c) g
    (_emergency_active c) (_emergency_lane c) (_emergency_start_time c)
    (_manual_override_active c) (_manual_override_lane c)
    (_manual_override_end_time c) (_current_plan c) (_current_phase_index c)
    (_phase_start_time c) (_pending_pedestrian_phases c)
    (_pending_turn_phases c) (_transition_history c).

Definition set_emergency (a : bool) (l : option string) (t : option Q)
    (c : Controller) : Controller :=
  mkController (config c) (_states c) (_green_times c) (_remaining_times c)
    (_active_lane c) (_lane_queue c) (_last_green_times c)
    a l t
    (_manual_override_active c) (_manual_override_lane c)
    (_manual_override_end_time c) (_current_plan c) (_current_phase_index c)
    (_phase_start_time c) (_pending_pedestrian_phases c)
    (_pending_turn_phases c) (_transition_history c).

Definition set_manual_override (a : bool) (l : option string) (t : option Q)
    (c : Controller) : Controller :=
  mkController (config c) (_states c) (_green_times c) (_remaining_times c)
    (_active_lane c) (_lane_queue c) (_last_green_times c)
    (_emergency_active c) (_emergency_lane c) (_emergency_start_time c)
    a l t (_current_plan c) (_current_phase_index c)
    (_phase_start_time c) (_pending_pedestrian_phases c)
    (_pending_turn_phases c) (_transition_history c).

Definition set_plan (p : option SignalPlan) (i : nat) (t : Q)
    (c : Controller) : Controller :=
  mkController (config c) (_states c) (_green_times c) (_remaining_times c)
    (_active_lane c) (_lane_queue c) (_last_green_times c)
    (_emergency_active c) (_emergency_lane c) (_emergency_start_time c)
    (_manual_override_active c) (_manual_override_lane c)
    (_manual_override_end_time c) p i t (_pending_pedestrian_phases c)
    (_pending_turn_phases c) (_transition_history c).

Definition set_pending_pedestrian_phases (l : list (string * Z))
    (c : Controller) : Controller :=
  mkController (config c) (_states c) (_green_times c) (_remaining_times c)
    (_active_lane c) (_lane_queue c) (_last_green_times c)
    (_emergency_active c) (_emergency_lane c) (_emergency_start_time c)
    (_manual_override_active c) (_manual_override_lane c)
    (_manual_override_end_time c) (_current_plan c) (_current_phase_index c)
    (_phase_start_time c) l (_pending_turn_phases c) (_transition_history c).

Definition set_pending_turn_phases (l : list (string * PhaseType * Z))
    (c : Controller) : Controller :=
  mkController (config c) (_states c) (_green_times c) (_remaining_times c)
    (_active_lane c) (_lane_queue c) (_last_green_times c)
    (_emergency_active c) (_emergency_lane c) (_emergency_start_time c)
    (_manual_override_active c) (_manual_override_lane c)
    (_manual_override_end_time c) (_current_plan c) (_current_phase_index c)
    (_phase_start_time c) (_pending_pedestrian_phases c) l
    (_transition_history c).

Definition set_transition_history (h : list StateTransition)
    (c : Controller) : Controller :=
  mkController (config c) (_states c) (_green_times c) (_remaining_times c)
    (_active_lane c) (_lane_queue c) (_last_green_times c)
    (_emergency_active c) (_emergency_lane c) (_emergency_start_time c)
    (_manual_override_active c) (_manual_override_lane c)
    (_manual_override_end_time c) (_current_plan c) (_current_phase_index c)
    (_phase_start_time c) (_pending_pedestrian_phases c)
    (_pending_turn_phases c) h.

(** ** [sorted(..., key=..., reverse=True)]

    Python's sort is stable, also with [reverse=True]: entries with equal
    keys keep their input order.  Insertion from the right end, stepping
    over strictly larger keys only, gives exactly that order. *)

Section SortedDesc.
Context {A : Type} (key : A → Z).

Fixpoint insert_desc (x : A) (l : list A) : list A :=
  match l with
  | [] => [x]
  | y :: l' =>
      if (key x <? key y)%Z then y :: insert_desc x l' else x :: y :: l'
  end.

Definition sorted_desc (l : list A) : list A :=
  foldr insert_desc [] l.
End SortedDesc.

(** ** [SignalController] ([src/signal_controller.py]) *)

Module Base.

(** [_advance_to_next_lane]; [self._green_times[next_lane]] raises
    [KeyError] on a lane without an allocation. *)
Definition _advance_to_next_lane (c : Controller) : result Controller :=
  match _lane_queue c with
  | next_lane :: rest =>
      let c := set_lane_queue rest c in
      let c := set_states (<[next_lane := GREEN]> (_states c)) c in
      match _green_times c !! next_lane with
      | Some g =>
          let c := set_remaining_times
                     (<[next_lane := inject_Z g]> (_remaining_times c)) c in
          Ok (set_active_lane (Some next_lane) c)
      | None => Raise KeyError
      end
  | [] => Ok (set_active_lane None c)
  end.

(** [start_cycle(green_times)]. *)
Definition start_cycle (green_times : list (string * Z)) (c : Controller)
    : result Controller :=
  let c := set_green_times (list_to_map green_times) c in
  let c := set_states (list_to_map ((λ p, (p.1, RED)) <$> green_times)) c in
  let c := set_remaining_times
             (list_to_map ((λ p, (p.1, 0%Q)) <$> green_times)) c in
  let c := set_lane_queue (fst <$> sorted_desc snd green_times) c in
  let c := set_active_lane None c in
  _advance_to_next_lane c.

(** [update_state(elapsed_time)] of the base class. *)
Definition update_state (elapsed_time : Q) (c : Controller)
    : result Controller :=
  match _active_lane c with
  | None => Ok c
  | Some active =>
      match _remaining_times c !! active with
      | None => Raise KeyError
      | Some r =>
          let r' := (r - elapsed_time)%Q in
          let c := set_remaining_times
                     (<[active := r']> (_remaining_times c)) c in
          if PyFloat.leb r' 0 then
            match _states c !! active with
            | None => Raise KeyError
            | Some GREEN =>
                let c := set_states (<[active := YELLOW]> (_states c)) c in
                Ok (set_remaining_times
                      (<[active := inject_Z (yellow_duration (config c))]>
                         (_remaining_times c)) c)
            | Some YELLOW =>
                let c := set_states (<[active := RED]> (_states c)) c in
                let c := set_remaining_times
                           (<[active := 0%Q]> (_remaining_times c)) c in
                _advance_to_next_lane c
            | Some RED => Ok c
            end
          else Ok c
      end
  end.

Definition get_current_states (c : Controller) : gmap string SignalState :=
  _states c.

Definition get_remaining_times (c : Controller) : gmap string Q :=
  _remaining_times c.

(** [allocate_green_time(density_ratios)]; [self.min_green] and
    [self.max_green] are the values the subclass passes on from its
    configuration. *)
Definition allocate_green_time (c : Controller)
    (density_ratios : list (string * Q)) : list (string * Z) :=
  let base_time := 40%Q in
  (λ p, (p.1, Z.max (min_green (config c))
                (Z.min (max_green (config c))
                   (PyFloat.trunc (base_time * p.2)))))
    <$> density_ratios.

(** A sequence of [update_state] calls of the base class. *)
Fixpoint updates (c : Controller) (elapsed_times : list Q)
    : result Controller :=
  match elapsed_times with
  | [] => Ok c
  | e :: rest => c' ← update_state e c; updates c' rest
  end.

End Base.

(** ** [AdvancedSignalController] ([src/advanced_signal_controller.py]) *)

(** A [Dict[str, LaneData]] in insertion order. *)
Abbreviation lane_data_map := (list (string * LaneData)).

(** [lane_data[lane]] *)
Fixpoint assoc_get {V} (k : string) (l : list (string * V)) : option V :=
  match l with
  | [] => None
  | (k', v) :: l' => if decide (k' = k) then Some v else assoc_get k l'
  end.

(** [sum(...)] over floats, starting from [0]. *)
Definition Qsum (l : list Q) : Q := foldl Qplus 0%Q l.

(** The [for vehicle_type, count in data.vehicle_types.items()] loop. *)
Definition class_weight (vehicle_type : string) : Q :=
  if decide (vehicle_type = "bus") then 2%Q
  else if decide (vehicle_type = "truck") then (3 # 2)%Q
  else if decide (vehicle_type = "bicycle") then (4 # 5)%Q
  else 1%Q.

Definition type_weight (vehicle_types : list (string * Z)) : Q :=
  foldl (λ acc p, (acc + inject_Z p.2 * class_weight p.1)%Q) 0%Q vehicle_types.

(** The fairness boost of [_calculate_priorities]:
    [last_green = self._last_green_times.get(lane, 0.0)], guarded by
    [if last_green > 0]. *)
Definition fairness_boost (cfg : SignalConfig) (last_green_times : gmap string Q)
    (current_time : Q) (lane : string) : Q :=
  let last_green := default 0%Q (last_green_times !! lane) in
  if PyFloat.ltb 0 last_green then
    let time_since_green := (current_time - last_green)%Q in
    if PyFloat.ltb (fairness_threshold cfg) time_since_green then
      ((time_since_green - fairness_threshold cfg) * fairness_boost_factor cfg)%Q
    else 0%Q
  else 0%Q.

(** The sum of the four demand factors, before the boost is added. *)
Definition base_priority (data : LaneData) : Q :=
  let count_factor := (inject_Z (vehicle_count data) * 1)%Q in
  let queue_factor := (queue_length data * (1 # 2))%Q in
  let wait_factor := (wait_time data * (3 # 10))%Q in
  let type_factor := (type_weight (vehicle_types data) * (1 # 5))%Q in
  (count_factor + queue_factor + wait_factor + type_factor)%Q.

Definition lane_priority (c : Controller) (current_time : Q)
    (lane : string) (data : LaneData) : Q :=
  let priority :=
    (base_priority data
     + fairness_boost (config c) (_last_green_times c) current_time lane)%Q in
  PyFloat.max 0 priority.

Definition _calculate_priorities (c : Controller) (current_time : Q)
    (lane_data : lane_data_map) : list (string * Q) :=
  (λ p, (p.1, lane_priority c current_time p.1 p.2)) <$> lane_data.

(** One iteration of the allocation loop of [_allocate_green_times]. *)
Definition allocate_lane (cfg : SignalConfig) (total_priority priority : Q)
    (data : LaneData) : Z :=
  let base_time := 60%Q in
  let ratio := (priority / total_priority)%Q in
  let time_allocated := PyFloat.trunc (base_time * ratio) in
  let time_allocated :=
    Z.max (min_green cfg) (Z.min (max_green cfg) time_allocated) in
  if PyFloat.ltb 50 (queue_length data) then
    let extra_time := Z.min 10 (PyFloat.trunc (queue_length data / 10)) in
    Z.min (max_green cfg) (time_allocated + extra_time)
  else time_allocated.

Fixpoint allocate_lanes (cfg : SignalConfig) (total_priority : Q)
    (lane_data : lane_data_map) (priorities : list (string * Q))
    : result (list (string * Z)) :=
  match priorities with
  | [] => Ok []
  | (lane, priority) :: rest =>
      match assoc_get lane lane_data with
      | None => Raise KeyError
      | Some data =>
          gts ← allocate_lanes cfg total_priority lane_data rest;
          Ok ((lane, allocate_lane cfg total_priority priority data) :: gts)
      end
  end.

Definition _allocate_green_times (c : Controller)
    (priorities : list (string * Q)) (lane_data : lane_data_map)
    : result (list (string * Z)) :=
  let total_priority := Qsum (snd <$> priorities) in
  if PyFloat.eqb total_priority 0 then
    Ok ((λ p, (p.1, min_green (config c))) <$> priorities)
  else allocate_lanes (config c) total_priority lane_data priorities.

(** The three loops of [_create_phases]. *)
Definition through_phases (cfg : SignalConfig) (sorted_lanes : list (string * Z))
    : list SignalPhase :=
  flat_map (λ p,
    if (p.2 <=? 0)%Z then []
    else [ mkPhase THROUGH [p.1] (inject_Z p.2) GREEN;
           mkPhase THROUGH [p.1] (inject_Z (yellow_duration cfg)) YELLOW ])
    sorted_lanes.

Definition pedestrian_phases (pending : list (string * Z)) : list SignalPhase :=
  (λ p, mkPhase PEDESTRIAN [p.1] (7 + (inject_Z p.2 - 1) * 1)%Q GREEN)
    <$> pending.

Definition turn_phases (cfg : SignalConfig)
    (pending : list (string * PhaseType * Z)) : list SignalPhase :=
  flat_map (λ p,
    let '(lane, phase_type, demand) := p in
    let turn_duration := Z.max 10 (Z.min 30 (demand * 3)) in
    [ mkPhase phase_type [lane] (inject_Z turn_duration) GREEN;
      mkPhase phase_type [lane] (inject_Z (yellow_duration cfg)) YELLOW ])
    pending.

Definition _create_phases (c : Controller) (green_times : list (string * Z))
    : list SignalPhase * Controller :=
  let sorted_lanes := sorted_desc snd green_times in
  let phases :=
    (through_phases (config c) sorted_lanes
     ++ pedestrian_phases (_pending_pedestrian_phases c)
     ++ turn_phases (config c) (_pending_turn_phases c))%list in
  (phases, set_pending_turn_phases [] (set_pending_pedestrian_phases [] c)).

Definition _create_emergency_plan (c : Controller) (emergency_lane : string)
    (now : Q) : SignalPlan * Controller :=
  let emergency_phase := mkPhase EMERGENCY [emergency_lane] 30 GREEN in
  let plan := mkPlan [emergency_phase] 30 true in
  (plan, set_plan (Some plan) 0 now c).

Definition scale_phases (scale_factor : Q) (phases : list SignalPhase)
    : list SignalPhase :=
  (λ ph, mkPhase (phase_type ph) (lanes ph)
           (duration ph * scale_factor)%Q (state ph)) <$> phases.

(** Truth value of a [str]: [''] is false.  ([None], the default of
    [next(..., None)], is false as well.) *)
Definition truthy (s : string) : bool := negb (String.eqb s EmptyString).

(** [allocate_time] past the emergency check: lines 144 to 180. *)
Definition allocate_normal (c : Controller) (lane_data : lane_data_map)
    (t1 t2 : Q) : result (SignalPlan * Controller) :=
  let priorities := _calculate_priorities c t1 lane_data in
  green_times ← _allocate_green_times c priorities lane_data;
  let '(phases, c) := _create_phases c green_times in
  let total_cycle_time := Qsum (duration <$> phases) in
  let cfg := config c in
  scaled ←
    (if PyFloat.ltb total_cycle_time (inject_Z (min_cycle_time cfg)) then
       if PyFloat.eqb total_cycle_time 0 then Raise ZeroDivisionError
       else
         let scale_factor :=
           (inject_Z (min_cycle_time cfg) / total_cycle_time)%Q in
         Ok (scale_phases scale_factor phases, inject_Z (min_cycle_time cfg))
     else if PyFloat.ltb (inject_Z (max_cycle_time cfg)) total_cycle_time then
       if PyFloat.eqb total_cycle_time 0 then Raise ZeroDivisionError
       else
         let scale_factor :=
           (inject_Z (max_cycle_time cfg) / total_cycle_time)%Q in
         Ok (scale_phases scale_factor phases, inject_Z (max_cycle_time cfg))
     else Ok (phases, total_cycle_time));
  let plan := mkPlan scaled.1 scaled.2 false in
  Ok (plan, set_plan (Some plan) 0 t2 c).

(** [allocate_time(lane_data)].  [t1] and [t2] are the clock reads of the
    call: on the emergency path only [t1] is read (by
    [_create_emergency_plan]); otherwise [t1] is read by
    [_calculate_priorities] and [t2] when the plan is installed. *)
Definition allocate_time (c : Controller) (lane_data : lane_data_map)
    (t1 t2 : Q) : result (SignalPlan * Controller) :=
  let emergency_override := existsb (λ p, has_emergency p.2) lane_data in
  if emergency_override then
    match fst <$> find (λ p, has_emergency p.2) lane_data with
    | Some emergency_lane =>
        if truthy emergency_lane then
          Ok (_create_emergency_plan c emergency_lane t1)
        else allocate_normal c lane_data t1 t2
    | None => allocate_normal c lane_data t1 t2
    end
  else allocate_normal c lane_data t1 t2.

(** [handle_emergency(emergency_lane)].  Clock reads: [t1] the emergency
    start, [t2] inside [_create_emergency_plan], [t3] the timestamp of the
    recorded transition (read only for a lane of [_states]). *)
Definition handle_emergency (c : Controller) (emergency_lane : string)
    (t1 t2 t3 : Q) : Controller :=
  let c := set_emergency true (Some emergency_lane) (Some t1) c in
  let '(plan, c) := _create_emergency_plan c emergency_lane t2 in
  match _states c !! emergency_lane with
  | Some old_state =>
      let states := <[emergency_lane := GREEN]> (_states c) in
      (* for lane in self._states.keys(): if lane != emergency_lane: RED *)
      let states :=
        map_imap (λ lane st,
          Some (if decide (lane = emergency_lane) then st else RED)) states in
      let c := set_states states c in
      let transition := mkTransition emergency_lane old_state GREEN t3 in
      set_transition_history (_transition_history c ++ [transition])%list c
  | None => c
  end.

Definition add_pedestrian_phase (c : Controller) (crosswalk : string)
    (demand : Z) : Controller :=
  set_pending_pedestrian_phases
    (_pending_pedestrian_phases c ++ [(crosswalk, demand)])%list c.

Definition add_turn_phase (c : Controller) (lane : string)
    (phase_type : PhaseType) (demand : Z) : Controller :=
  set_pending_turn_phases
    (_pending_turn_phases c ++ [(lane, phase_type, demand)])%list c.

(** The first [for lane in current_phase.lanes] loop of [update_state]:
    the lanes of the completed phase. *)
Definition complete_lane (phase_state : SignalState) (current_time : Q)
    (acc : Controller * list StateTransition) (lane : string)
    : Controller * list StateTransition :=
  let '(c, transitions) := acc in
  match _states c !! lane with
  | Some old_state =>
      let new_state :=
        match phase_state with
        | GREEN => YELLOW
        | YELLOW => RED
        | RED => RED
        end in
      let c := set_states (<[lane := new_state]> (_states c)) c in
      let c :=
        if decide (old_state = GREEN)
        then set_last_green_times (<[lane := current_time]> (_last_green_times c)) c
        else c in
      (c, (transitions ++ [mkTransition lane old_state new_state current_time])%list)
  | None => acc
  end.

(** The second loop: the lanes of the phase that starts. *)
Definition start_lane (phase_state : SignalState) (current_time : Q)
    (acc : Controller * list StateTransition) (lane : string)
    : Controller * list StateTransition :=
  let '(c, transitions) := acc in
  match _states c !! lane with
  | Some old_state =>
      let c := set_states (<[lane := phase_state]> (_states c)) c in
      (c, (transitions ++ [mkTransition lane old_state phase_state current_time])%list)
  | None => acc
  end.

(** The plan branch of [update_state] (lines 484 to 536), for the current
    phase [current_phase] of plan [plan]. *)
Definition advance_plan (c : Controller) (plan : SignalPlan)
    (current_phase : SignalPhase) (current_time : Q)
    : Controller * list StateTransition :=
  let phase_elapsed := (current_time - _phase_start_time c)%Q in
  if PyFloat.leb (duration current_phase) phase_elapsed then
    let '(c, transitions) :=
      foldl (complete_lane (state current_phase) current_time) (c, [])
        (lanes current_phase) in
    let c := set_plan (_current_plan c) (S (_current_phase_index c))
               current_time c in
    match phases plan !! _current_phase_index c with
    | Some next_phase =>
        foldl (start_lane (state next_phase) current_time) (c, transitions)
          (lanes next_phase)
    | None => (c, transitions)
    end
  else (c, []).

(** The manual-override check of [update_state]; [None] stands for the
    early [return transitions].  Comparing the clock with an end time that
    is still [None] raises [TypeError]. *)
Definition check_manual_override (c : Controller) (current_time : Q)
    : result (option Controller) :=
  if _manual_override_active c then
    match _manual_override_end_time c with
    | None => Raise TypeError
    | Some end_time =>
        if PyFloat.leb end_time current_time then
          Ok (Some (set_manual_override false None
                      (_manual_override_end_time c) c))
        else Ok None
    end
  else Ok (Some c).

(** The emergency check: [self._emergency_start_time and (...) >= 30.0];
    a start time of [None] or [0.0] is false. *)
Definition emergency_expired (c : Controller) (current_time : Q) : bool :=
  match _emergency_start_time c with
  | Some start =>
      negb (PyFloat.eqb start 0) && PyFloat.leb 30 (current_time - start)
  | None => false
  end.

Definition check_emergency (c : Controller) (current_time : Q)
    : option Controller :=
  if _emergency_active c then
    if emergency_expired c current_time then
      Some (set_emergency false None None c)
    else None
  else Some c.

(** [update_state(elapsed_time)]; [current_time] is the single clock read
    at the top of the method. *)
Definition update_state (c : Controller) (elapsed_time : Q) (current_time : Q)
    : result (list StateTransition * Controller) :=
  oc ← check_manual_override c current_time;
  match oc with
  | None => Ok ([], c)
  | Some c1 =>
      match check_emergency c1 current_time with
      | None => Ok ([], c1)
      | Some c2 =>
          match _current_plan c2 with
          | Some plan =>
              match phases plan !! _current_phase_index c2 with
              | Some current_phase =>
                  let '(c3, transitions) :=
                    advance_plan c2 plan current_phase current_time in
                  Ok (transitions, c3)
              | None =>
                  c3 ← Base.update_state elapsed_time c2;
                  Ok ([], c3)
              end
          | None =>
              c3 ← Base.update_state elapsed_time c2;
              Ok ([], c3)
          end
      end
  end.

(** [override_signal(lane, state, duration)]; [t1] and [t2] are its two
    clock reads. *)
Definition override_signal (c : Controller) (lane : string)
    (st : SignalState) (duration : Q) (t1 t2 : Q) : result Controller :=
  match _states c !! lane with
  | None => Raise ValueError
  | Some old_state =>
      let c := set_states (<[lane := st]> (_states c)) c in
      let c := set_manual_override true (Some lane) (Some (t1 + duration)%Q) c in
      Ok (set_transition_history
            (_transition_history c ++ [mkTransition lane old_state st t2])%list c)
  end.

Definition clear_emergency (c : Controller) : Controller :=
  set_emergency false None None c.

Definition is_emergency_active (c : Controller) : bool := _emergency_active c.

Definition get_current_plan (c : Controller) : option SignalPlan :=
  _current_plan c.

Definition get_current_states (c : Controller) : gmap string SignalState :=
  _states c.

Definition get_transition_history (c : Controller) : list StateTransition :=
  _transition_history c.

(** ** [MultiIntersectionCoordinator]
       ([src/multi_intersection_coordinator.py]) *)

Module Coordinator.

(** What [calculate_offsets] observes of a registered controller:
    whether it has a [config] attribute, and whether that has a
    [max_cycle_time]. *)
Inductive controller_view :=
| NoConfig
| WithConfig (max_cycle_time : option Q).

(** An [AdvancedSignalController] seen by the coordinator. *)
Definition view (c : Controller) : controller_view :=
  WithConfig (Some (inject_Z (max_cycle_time (config c)))).

(** [NetworkConfig]; of [intersections] only the keys are read, kept in
    insertion order. *)
Record NetworkConfig := mkNetworkConfig {
  intersections : list string;
  connections : list (string * string);
  travel_times : gmap (string * string) Q;
  coordination_enabled : bool
}.

Record NetworkMetrics := mkNetworkMetrics {
  average_travel_time : Q;
  stops_per_vehicle : Q;
  coordination_quality : Q;
  total_throughput : Z;
  network_delay : Q
}.

Record t := mkCoordinator {
  network_config : NetworkConfig;
  _controllers : gmap string controller_view;
  _offsets : gmap string Q;
  _total_vehicles_processed : Z;
  _total_stops : Z;
  _total_travel_time : Q;
  _vehicle_count : Z;
  _network_delay : Q
}.

(** [MultiIntersectionCoordinator(network_config)]. *)
Definition init (nc : NetworkConfig) : t :=
  mkCoordinator nc ∅ ∅ 0 0 0 0 0.

Definition set_controllers (cs : gmap string controller_view) (m : t) : t :=
  mkCoordinator (network_config m) cs (_offsets m)
    (_total_vehicles_processed m) (_total_stops m) (_total_travel_time m)
    (_vehicle_count m) (_network_delay m).

Definition set_offsets (o : gmap string Q) (m : t) : t :=
  mkCoordinator (network_config m) (_controllers m) o
    (_total_vehicles_processed m) (_total_stops m) (_total_travel_time m)
    (_vehicle_count m) (_network_delay m).

Definition register_intersection (m : t) (intersection_id : string)
    (controller : controller_view) : result t :=
  if decide (intersection_id ∈ intersections (network_config m)) then
    let m := set_controllers
               (<[intersection_id := controller]> (_controllers m)) m in
    match _offsets m !! intersection_id with
    | Some _ => Ok m
    | None => Ok (set_offsets (<[intersection_id := 0%Q]> (_offsets m)) m)
    end
  else Raise ValueError.

(** The cycle time [calculate_offsets] uses for an intersection: its
    controller's [config.max_cycle_time], else the default of 60. *)
Definition cycle_time_of (m : t) (iid : string) : Q :=
  let default_cycle_time := 60%Q in
  match _controllers m !! iid with
  | Some (WithConfig (Some c)) => c
  | Some (WithConfig None) => default_cycle_time
  | Some NoConfig => default_cycle_time
  | None => default_cycle_time
  end.

(** State of the breadth-first loop. *)
Record bfs_state := mkBfs {
  offsets : gmap string Q;
  processed : gset string;
  queue : list string
}.

(** The [for from_id, to_id in self.network_config.connections] loop for
    the intersection [current]; a zero cycle time makes [%] raise. *)
Fixpoint visit_connections (travel_times : gmap (string * string) Q)
    (current : string) (current_offset cycle_time : Q)
    (conns : list (string * string)) (st : bfs_state) : result bfs_state :=
  match conns with
  | [] => Ok st
  | (from_id, to_id) :: rest =>
      if decide (from_id = current ∧ to_id ∉ processed st) then
        let travel_time := default 0%Q (travel_times !! (from_id, to_id)) in
        if PyFloat.eqb cycle_time 0 then Raise ZeroDivisionError
        else
          let new_offset :=
            PyFloat.fmod (current_offset + travel_time) cycle_time in
          visit_connections travel_times current current_offset cycle_time
            rest
            (mkBfs (<[to_id := new_offset]> (offsets st))
                   ({[to_id]} ∪ processed st)
                   (queue st ++ [to_id])%list)
      else
        visit_connections travel_times current current_offset cycle_time
          rest st
  end.

(** The [while queue] loop.  [None] means the fuel ran out; with
    [S (length connections)] iterations it never does
    ([bfs_terminates]). *)
Fixpoint bfs (m : t) (travel_times : gmap (string * string) Q)
    (fuel : nat) (st : bfs_state) : option (result bfs_state) :=
  match queue st with
  | [] => Some (Ok st)
  | current :: rest =>
      match fuel with
      | O => None
      | S fuel' =>
          match offsets st !! current with
          | None => Some (Raise KeyError)
          | Some current_offset =>
              let cycle_time := cycle_time_of m current in
              match visit_connections travel_times current current_offset
                      cycle_time (connections (network_config m))
                      (mkBfs (offsets st) (processed st) rest) with
              | Ok st' => bfs m travel_times fuel' st'
              | Raise e => Some (Raise e)
              end
          end
      end
  end.

(** [for iid in intersection_ids: if iid not in offsets: offsets[iid] = 0.0] *)
Definition fill_unprocessed (ids : list string) (o : gmap string Q)
    : gmap string Q :=
  foldl (λ o iid, match o !! iid with
                  | Some _ => o
                  | None => <[iid := 0%Q]> o
                  end) o ids.

(** [calculate_offsets(travel_times)]: the returned map and the
    coordinator afterwards. *)
Definition calculate_offsets (m : t) (travel_times : gmap (string * string) Q)
    : option (result (gmap string Q * t)) :=
  let nc := network_config m in
  if decide (travel_times = ∅) then
    Some (Ok (list_to_map ((λ iid, (iid, 0%Q)) <$> intersections nc), m))
  else
    match intersections nc with
    | [] => Some (Ok (∅, m))
    | reference_intersection :: _ =>
        let st := mkBfs {[reference_intersection := 0%Q]}
                        {[reference_intersection]}
                        [reference_intersection] in
        match bfs m travel_times (S (length (connections nc))) st with
        | None => None
        | Some (Raise e) => Some (Raise e)
        | Some (Ok st') =>
            let o := fill_unprocessed (intersections nc) (offsets st') in
            Some (Ok (o, set_offsets o m))
        end
    end.

Definition update_metrics (m : t) (vehicle_travel_time : Q)
    (vehicle_stops : Z) : t :=
  mkCoordinator (network_config m) (_controllers m) (_offsets m)
    (_total_vehicles_processed m + 1)%Z
    (_total_stops m + vehicle_stops)%Z
    (_total_travel_time m + vehicle_travel_time)%Q
    (_vehicle_count m + 1)%Z
    (_network_delay m).

Definition reset_metrics (m : t) : t :=
  mkCoordinator (network_config m) (_controllers m) (_offsets m) 0 0 0 0 0.

(** The score computed inside [get_network_metrics]. *)
Definition quality_of (vehicle_count : Z) (stops_per_vehicle : Q) : Q :=
  if (0 <? vehicle_count)%Z then
    if PyFloat.leb stops_per_vehicle 1 then
      (1 - stops_per_vehicle / 2)%Q
    else PyFloat.max 0 (1 - stops_per_vehicle / 4)%Q
  else 0%Q.

Definition get_network_metrics (m : t) : NetworkMetrics :=
  let avg_travel_time :=
    if (0 <? _vehicle_count m)%Z
    then (_total_travel_time m / inject_Z (_vehicle_count m))%Q else 0%Q in
  let stops_per_vehicle :=
    if (0 <? _vehicle_count m)%Z
    then (inject_Z (_total_stops m) / inject_Z (_vehicle_count m))%Q
    else 0%Q in
  mkNetworkMetrics avg_travel_time stops_per_vehicle
    (quality_of (_vehicle_count m) stops_per_vehicle)
    (_total_vehicles_processed m) (_network_delay m).

End Coordinator.

(** ** Call sequences

    A caller issues [allocate_time(lane_data)] and
    [update_state(elapsed_time)]; the clock readings each call meets are
    the environment's part of the step. *)

Inductive call :=
| AllocateTime (lane_data : lane_data_map)
| UpdateState (elapsed_time : Q).

Inductive output :=
| Plan (p : SignalPlan)
| Transitions (l : list StateTransition).

Definition step (c : Controller) (k : call) (clock : Q * Q)
    : result (output * Controller) :=
  match k with
  | AllocateTime lane_data =>
      r ← allocate_time c lane_data clock.1 clock.2;
      Ok (Plan r.1, r.2)
  | UpdateState elapsed_time =>
      r ← update_state c elapsed_time clock.1;
      Ok (Transitions r.1, r.2)
  end.

Fixpoint run (c : Controller) (calls : list (call * (Q * Q)))
    : result (list output * Controller) :=
  match calls with
  | [] => Ok ([], c)
  | (k, clock) :: rest =>
      r ← step c k clock;
      r' ← run r.2 rest;
      Ok (r.1 :: r'.1, r'.2)
  end.

(** A controller whose lanes are configured and all RED, with no plan
    yet: the state before the first allocation. *)
Definition configured (cfg : SignalConfig) (lane_names : list string)
    : Controller :=
  set_states (list_to_map ((λ l, (l, RED)) <$> lane_names)) (init cfg).

(** At most one lane is GREEN or YELLOW. *)
Definition mutual_exclusion (states : gmap string SignalState) : Prop :=
  ∀ l1 l2 s1 s2,
    states !! l1 = Some s1 → states !! l2 = Some s2 →
    s1 ≠ RED → s2 ≠ RED → l1 = l2.

(** Normal operation: neither a manual override nor an emergency hold. *)
Definition normal_operation (c : Controller) : Prop :=
  _manual_override_active c = false ∧ _emergency_active c = false.

(** Lane data with a vehicle count only. *)
Definition demand (count : Z) : LaneData :=
  mkLaneData count 0 0 [] false 0.

(** Every call of a sequence is an [update_state], met at the listed
    (elapsed time, clock reading) pairs. *)
Definition ticks (l : list (Q * Q)) : list (call * (Q * Q)) :=
  (λ p, (UpdateState p.1, (p.2, p.2))) <$> l.

(** The end time is set whenever the override flag is: [override_signal]
    is the only writer of the flag and sets both. *)
Definition override_wf (c : Controller) : Prop :=
  _manual_override_active c = true → is_Some (_manual_override_end_time c).

(** ** Predicates and inputs of the properties *)

(** A green time within the configured range. *)
Definition green_ok (cfg : SignalConfig) (g : Z) : Prop :=
  (min_green cfg ≤ g ≤ max_green cfg)%Z.

(** What an [update_state] during the hold has to find. *)
Definition holding (t0 : Q) (c : Controller) : Prop :=
  _emergency_active c = true
  ∧ _emergency_start_time c = Some t0
  ∧ override_wf c.

(** Two lanes with three vehicles and one vehicle: 45 and 15 seconds of
    green. *)
Definition north_south : lane_data_map :=
  [("north", demand 3); ("south", demand 1)].

(** An allocation, two phase changes that bring [south] to GREEN, a second
    allocation while [south] is GREEN, and the first phase change of the
    new plan. *)
Definition reallocation_trace : list (call * (Q * Q)) :=
  [ (AllocateTime north_south, (0, 0)%Q);
    (UpdateState 45, (45, 45)%Q);
    (UpdateState 3, (48, 48)%Q);
    (AllocateTime north_south, (49, 49)%Q);
    (UpdateState 45, (94, 94)%Q) ].

(** The first lane of the map that reports an emergency, as
    [next((lane for ...), None)] finds it. *)
Definition first_emergency (lane_data : lane_data_map) : option string :=
  fst <$> find (λ p, has_emergency p.2) lane_data.

(** Lane data that reports an emergency vehicle. *)
Definition emergency_on (count : Z) : LaneData :=
  mkLaneData count 0 0 [] true 0.

(** How the phases of a plan relate to the phases [_create_phases] built:
    they are kept when the phase-duration sum is within the cycle-time
    range, and all multiplied by one factor otherwise. *)
Inductive rescaled (cfg : SignalConfig) (raw : list SignalPhase)
    : SignalPlan → Prop :=
| Kept :
    (inject_Z (min_cycle_time cfg) <= Qsum (duration <$> raw)
     <= inject_Z (max_cycle_time cfg))%Q →
    rescaled cfg raw (mkPlan raw (Qsum (duration <$> raw)) false)
| ScaledUp :
    (Qsum (duration <$> raw) < inject_Z (min_cycle_time cfg))%Q →
    rescaled cfg raw
      (mkPlan (scale_phases (inject_Z (min_cycle_time cfg)
                             / Qsum (duration <$> raw)) raw)
         (inject_Z (min_cycle_time cfg)) false)
| ScaledDown :
    (inject_Z (max_cycle_time cfg) < Qsum (duration <$> raw))%Q →
    rescaled cfg raw
      (mkPlan (scale_phases (inject_Z (max_cycle_time cfg)
                             / Qsum (duration <$> raw)) raw)
         (inject_Z (max_cycle_time cfg)) false).

(** Fourteen lanes without demand: fourteen green phases of [min_green]
    and fourteen yellow phases add up to 182 seconds. *)
Definition idle_lanes : lane_data_map :=
  (λ l, (l, demand 0)) <$>
    ["n1"; "n2"; "n3"; "n4"; "n5"; "n6"; "n7";
     "s1"; "s2"; "s3"; "s4"; "s5"; "s6"; "s7"].

(** North was green at clock 100; south has ten vehicles (priority 10). *)
Definition north_waited : Controller :=
  set_last_green_times {[ "north" := 100%Q ]}
    (configured default_config ["north"; "south"]).

(** The controller after the first allocation for [north_south] at clock 0. *)
Definition allocated : Controller :=
  match allocate_time (configured default_config ["north"; "south"])
          north_south 0 0 with
  | Ok r => r.2
  | Raise _ => configured default_config ["north"; "south"]
  end.

(** [AdvancedSignalController()]. *)
Definition default_controller : Controller := init default_config.

(** The two fields [override_wf] speaks about. *)
Definition override_fields (c : Controller) : bool * option Q :=
  (_manual_override_active c, _manual_override_end_time c).

(** A plan without pedestrian and turn phases: per lane a GREEN phase
    followed by a YELLOW phase of the same lane. *)
Inductive lane_pairs : list SignalPhase → Prop :=
| pairs_nil : lane_pairs []
| pairs_cons l ty1 ty2 d1 d2 rest :
    lane_pairs rest →
    lane_pairs (mkPhase ty1 [l] d1 GREEN :: mkPhase ty2 [l] d2 YELLOW :: rest).

(** Every lane is RED; every lane but [l] is RED. *)
Definition all_red (states : gmap string SignalState) : Prop :=
  ∀ l s, states !! l = Some s → s = RED.

Definition others_red (states : gmap string SignalState) (l : string) : Prop :=
  ∀ l' s, states !! l' = Some s → l' ≠ l → s = RED.

(** The lane states against the phases from the cursor on. *)
Inductive cursor_ok (states : gmap string SignalState)
    : list SignalPhase → Prop :=
| at_end : all_red states → cursor_ok states []
| at_green l ty1 ty2 d1 d2 rest :
    lane_pairs rest → others_red states l →
    cursor_ok states
      (mkPhase ty1 [l] d1 GREEN :: mkPhase ty2 [l] d2 YELLOW :: rest)
| at_yellow l ty d rest :
    lane_pairs rest → others_red states l →
    cursor_ok states (mkPhase ty [l] d YELLOW :: rest).

(** What holds between the calls while one plan of [lane_pairs] runs. *)
Definition single_plan_inv (c : Controller) : Prop :=
  normal_operation c
  ∧ _active_lane c = None
  ∧ ∃ plan, _current_plan c = Some plan
            ∧ cursor_ok (_states c)
                (drop (_current_phase_index c) (phases plan)).

(** [if lane in self._states: self._states[lane] = s] *)
Definition set_if_present (l : string) (s : SignalState)
    (m : gmap string SignalState) : gmap string SignalState :=
  match m !! l with
  | Some _ => <[l := s]> m
  | None => m
  end.

(** The state a lane of a completed phase is sent to. *)
Definition after_phase (phase_state : SignalState) : SignalState :=
  match phase_state with
  | GREEN => YELLOW
  | YELLOW => RED
  | RED => RED
  end.

(** The fields a phase change leaves alone. *)
Definition frame (c : Controller)
    : bool * bool * option string * option SignalPlan :=
  (_manual_override_active c, _emergency_active c, _active_lane c,
   _current_plan c).

(** What the base class keeps between its calls: the queued lanes have an
    allocation, and every lane but the active one is RED. *)
Definition cycle_inv (c : Controller) : Prop :=
  Forall (λ l, is_Some (_green_times c !! l)) (_lane_queue c)
  ∧ match _active_lane c with
    | Some a =>
        is_Some (_states c !! a) ∧ is_Some (_remaining_times c !! a)
        ∧ others_red (_states c) a
    | None => all_red (_states c)
    end.

Module NetworkInputs.
Import Coordinator.

(** One intersection, no connection. *)
Definition empty_network : NetworkConfig := mkNetworkConfig ["A"] [] ∅ true.

(** The score for a positive vehicle count, as a function of the stops
    per vehicle. *)
Definition score (s : Q) : Q :=
  if PyFloat.leb s 1 then (1 - s / 2)%Q else PyFloat.max 0 (1 - s / 4)%Q.

(** The intersections some connection leads to, and the measure of the
    breadth-first loop: targets not yet processed plus queued
    intersections. *)
Definition targets (conns : list (string * string)) : gset string :=
  list_to_set (snd <$> conns).

Definition pending (conns : list (string * string)) (st : bfs_state) : nat :=
  size (targets conns ∖ processed st) + length (queue st).

(** A network of two intersections with the single connection A→B. *)
Definition two_nodes (m : t) (A B : string) : Prop :=
  A ≠ B
  ∧ intersections (network_config m) = [A; B]
  ∧ connections (network_config m) = [(A, B)].

(** A at the default [SignalConfig] (cycle time 180), B with a cycle time
    of 60, 70 seconds apart. *)
Definition uneven_network : t :=
  let nc := mkNetworkConfig ["A"; "B"] [("A", "B")] {[ ("A", "B") := 70%Q ]}
              true in
  set_controllers
    {[ "A" := view default_controller;
       "B" := WithConfig (Some 60%Q) ]}
    (init nc).

(** An offset [calculate_offsets] may assign to [iid]: zero, or a value
    below the cycle time of an intersection with a connection to [iid]. *)
Definition offset_ok (m : t) (iid : string) (x : Q) : Prop :=
  x = 0%Q
  ∨ ∃ from_id, (from_id, iid) ∈ connections (network_config m)
               ∧ (0 <= x < cycle_time_of m from_id)%Q.

(** What the breadth-first loop keeps, for the reference [ref]. *)
Definition bfs_inv (m : t) (ref : string) (st : bfs_state) : Prop :=
  offsets st !! ref = Some 0%Q
  ∧ ref ∈ processed st
  ∧ Forall (λ q, is_Some (offsets st !! q)) (queue st)
  ∧ map_Forall (offset_ok m) (offsets st).

(** A as a controller whose [config.max_cycle_time] is 0. *)
Definition stalled_network : t :=
  let nc := mkNetworkConfig ["A"; "B"] [("A", "B")] {[ ("A", "B") := 70%Q ]}
              true in
  set_controllers {[ "A" := WithConfig (Some 0%Q) ]} (init nc).

(** The coordinator after the samples [(travel time, stops)] of [l]. *)
Definition record_samples (m : t) (l : list (Q * Z)) : t :=
  foldl (λ m s, update_metrics m s.1 s.2) m l.

End NetworkInputs.

(** * Properties *)

(** ** Facts about the float operators *)

Module PyFloatFacts.
Import PyFloat.

Lemma ltb_lt x y : ltb x y = true ↔ (x < y)%Q.
Proof.
  unfold ltb. rewrite negb_true_iff. split.
  - intros H. apply Qnot_le_lt. intros Hle.
    apply Qle_bool_iff in Hle. congruence.
  - intros H. destruct (Qle_bool y x) eqn:E; [|done].
    apply Qle_bool_iff in E. exfalso. apply (Qlt_not_le _ _ H E).
Qed.

Lemma ltb_ge x y : ltb x y = false ↔ (y <= x)%Q.
Proof.
  unfold ltb. rewrite negb_false_iff. apply Qle_bool_iff.
Qed.

Lemma leb_le x y : leb x y = true ↔ (x <= y)%Q.
Proof. apply Qle_bool_iff. Qed.

Lemma leb_gt x y : leb x y = false ↔ (y < x)%Q.
Proof.
  unfold leb. split.
  - intros H. apply Qnot_le_lt. intros Hle.
    apply Qle_bool_iff in Hle. congruence.
  - intros H. destruct (Qle_bool x y) eqn:E; [|done].
    apply Qle_bool_iff in E. exfalso. apply (Qlt_not_le _ _ H E).
Qed.

Lemma eqb_eq x y : eqb x y = true ↔ (x == y)%Q.
Proof. apply Qeq_bool_iff. Qed.

Lemma max_lub_l a b : (a <= max a b)%Q.
Proof.
  unfold max. destruct (ltb a b) eqn:E.
  - apply ltb_lt in E. by apply Qlt_le_weak.
  - apply Qle_refl.
Qed.

Lemma max_lub_r a b : (b <= max a b)%Q.
Proof.
  unfold max. destruct (ltb a b) eqn:E.
  - apply Qle_refl.
  - by apply ltb_ge in E.
Qed.

End PyFloatFacts.

(** ** The sort keeps the entries *)

Section SortedDescFacts.
Context {A : Type} (key : A → Z).

Lemma insert_desc_perm x l : insert_desc key x l ≡ₚ x :: l.
Proof.
  induction l as [|y l IH]; simpl; [done|].
  destruct (key x <? key y)%Z; [|done].
  rewrite IH. apply Permutation_swap.
Qed.

Lemma sorted_desc_perm l : sorted_desc key l ≡ₚ l.
Proof.
  induction l as [|x l IH]; simpl; [done|].
  rewrite insert_desc_perm. by rewrite IH.
Qed.

Lemma sorted_desc_elem_of x l : x ∈ sorted_desc key l ↔ x ∈ l.
Proof. by rewrite sorted_desc_perm. Qed.
End SortedDescFacts.

(** ** Emergency preemption *)

Section Preemption.
Context (c : Controller) (L : string).

Lemma handle_emergency_states_configured old (t1 t2 t3 : Q) :
  _states c !! L = Some old →
  _states (handle_emergency c L t1 t2 t3)
  = map_imap (λ lane st, Some (if decide (lane = L) then st else RED))
      (<[L := GREEN]> (_states c)).
Proof. intros H. unfold handle_emergency. simpl. by rewrite H. Qed.

Lemma handle_emergency_unconfigured (t1 t2 t3 : Q) :
  _states c !! L = None →
  handle_emergency c L t1 t2 t3
  = set_plan (Some (mkPlan [mkPhase EMERGENCY [L] 30 GREEN] 30 true)) 0 t2
      (set_emergency true (Some L) (Some t1) c).
Proof. intros H. unfold handle_emergency. simpl. by rewrite H. Qed.

Lemma preempted_lookup (states : gmap string SignalState) l :
  map_imap (λ lane st, Some (if decide (lane = L) then st else RED))
    (<[L := GREEN]> states) !! l
  = if decide (l = L) then Some GREEN else (λ _, RED) <$> states !! l.
Proof.
  rewrite map_lookup_imap. destruct (decide (l = L)) as [->|Hne].
  - by rewrite lookup_insert_eq.
  - rewrite lookup_insert_ne by done. by destruct (states !! l).
Qed.
End Preemption.

(** C2. For a configured lane [L] and any prior controller state,
    [handle_emergency(L)] makes [L] GREEN and every other configured lane
    RED (the set of lanes is unchanged), and a second
    [handle_emergency(L)] leaves the state map identical. *)
Theorem handle_emergency_preempts (c : Controller) (L : string)
    (t1 t2 t3 u1 u2 u3 : Q) :
  is_Some (_states c !! L) →
  let c' := handle_emergency c L t1 t2 t3 in
  get_current_states c' !! L = Some GREEN
  ∧ (∀ l, l ≠ L → is_Some (_states c !! l) →
       get_current_states c' !! l = Some RED)
  ∧ dom (get_current_states c') = dom (_states c)
  ∧ get_current_states (handle_emergency c' L u1 u2 u3)
    = get_current_states c'.
Proof.
  intros [old Hold] c'. unfold get_current_states.
  assert (Hst : ∀ l, _states c' !! l
                     = if decide (l = L) then Some GREEN
                       else (λ _, RED) <$> _states c !! l).
  { intros l. unfold c'.
    rewrite (handle_emergency_states_configured c L old) by done.
    apply preempted_lookup. }
  assert (HL : _states c' !! L = Some GREEN).
  { rewrite Hst. by rewrite decide_True. }
  repeat split.
  - done.
  - intros l Hne [s Hs]. rewrite Hst, decide_False by done. by rewrite Hs.
  - apply set_eq. intros l. rewrite !elem_of_dom, Hst.
    destruct (decide (l = L)) as [->|]; [naive_solver|].
    by rewrite fmap_is_Some.
  - rewrite (handle_emergency_states_configured c' L GREEN) by done.
    apply map_eq. intros l. rewrite preempted_lookup, Hst.
    destruct (decide (l = L)); [done|].
    by destruct (_states c !! l).
Qed.

Lemma handle_emergency_preempts_witness :
  is_Some (_states (configured default_config ["north"; "south"]) !! "north")
  ∧ get_current_states
      (handle_emergency (configured default_config ["north"; "south"])
         "north" 5 5 5) !! "south" = Some RED.
Proof.
  assert (H : is_Some (_states (configured default_config ["north"; "south"])
                         !! "north")).
  { exists RED. by vm_compute. }
  split; [exact H|].
  apply (handle_emergency_preempts _ "north" 5 5 5 6 6 6 H); [done|].
  exists RED. by vm_compute.
Defined.

(** ** The emergency hold *)

Lemma update_state_during_hold (c : Controller) (t0 elapsed now : Q) :
  holding t0 c → (now - t0 < 30)%Q →
  ∃ c', update_state c elapsed now = Ok ([], c')
        ∧ _states c' = _states c
        ∧ _transition_history c' = _transition_history c
        ∧ holding t0 c'.
Proof.
  intros (Hact & Hstart & Hwf) Hlt.
  assert (Hexp : ∀ c1, _emergency_start_time c1 = Some t0 →
                       emergency_expired c1 now = false).
  { intros c1 H1. unfold emergency_expired. rewrite H1.
    apply andb_false_iff. right. by apply PyFloatFacts.leb_gt. }
  unfold update_state, check_manual_override.
  destruct (_manual_override_active c) eqn:Hov.
  - destruct (Hwf Hov) as [end_time Hend]. rewrite Hend.
    destruct (PyFloat.leb end_time now); simpl.
    + unfold check_emergency. simpl. rewrite Hact.
      rewrite Hexp by done.
      eexists. repeat split; try done.
    + eexists. repeat split; try done.
  - simpl. unfold check_emergency. rewrite Hact, Hexp by done.
    eexists. repeat split; try done.
Qed.

Lemma ticks_during_hold (l : list (Q * Q)) : ∀ (c : Controller) (t0 : Q),
  holding t0 c → Forall (λ p, (p.2 - t0 < 30)%Q) l →
  ∃ c', run c (ticks l) = Ok (replicate (length l) (Transitions []), c')
        ∧ _states c' = _states c
        ∧ _transition_history c' = _transition_history c.
Proof.
  induction l as [|[elapsed now] l IH]; intros c t0 Hhold Hall.
  - by exists c.
  - inversion Hall as [|? ? Hnow Hrest]; subst.
    destruct (update_state_during_hold c t0 elapsed now Hhold Hnow)
      as (c1 & Hstep & Hst1 & Hh1 & Hhold1).
    destruct (IH c1 t0 Hhold1 Hrest) as (c2 & Hrun & Hst2 & Hh2).
    exists c2. simpl. rewrite Hstep. simpl. rewrite Hrun. simpl.
    repeat split; congruence.
Qed.

(** C10. For a lane [L] that is not configured, [handle_emergency(L)]
    (which cannot raise) leaves every lane state unchanged and records no
    transition, yet it activates the emergency hold: every later
    [update_state] met within 30 seconds of the start returns an empty
    transition list and changes no lane state. *)
Theorem unconfigured_emergency_holds (c : Controller) (L : string)
    (t1 t2 t3 : Q) (l : list (Q * Q)) :
  _states c !! L = None →
  override_wf c →
  Forall (λ p, (p.2 - t1 < 30)%Q) l →
  let c' := handle_emergency c L t1 t2 t3 in
  get_current_states c' = get_current_states c
  ∧ get_transition_history c' = get_transition_history c
  ∧ is_emergency_active c' = true
  ∧ ∃ c'', run c' (ticks l) = Ok (replicate (length l) (Transitions []), c'')
           ∧ get_current_states c'' = get_current_states c
           ∧ get_transition_history c'' = get_transition_history c.
Proof.
  intros HL Hwf Hall c'. unfold c'.
  rewrite handle_emergency_unconfigured by done.
  split; [done|]. split; [done|]. split; [done|].
  set (held := set_plan _ _ _ _).
  assert (Hhold : holding t1 held) by (by repeat split).
  destruct (ticks_during_hold l held t1 Hhold Hall) as (c'' & Hrun & Hs & Hh).
  exists c''. unfold get_current_states, get_transition_history.
  split; [done|]. split; [by rewrite Hs | by rewrite Hh].
Qed.

Lemma unconfigured_emergency_holds_witness :
  ∃ c'',
    run (handle_emergency (configured default_config ["north"; "south"])
           "east" 100 100 100)
        (ticks [(1, 101); (10, 111); (18, 129)]%Q)
    = Ok (replicate 3 (Transitions []), c'')
    ∧ get_current_states c''
      = get_current_states (configured default_config ["north"; "south"]).
Proof.
  assert (HL : _states (configured default_config ["north"; "south"])
               !! "east" = None) by (by vm_compute).
  assert (Hwf : override_wf (configured default_config ["north"; "south"])).
  { intros Hf. by vm_compute in Hf. }
  assert (Hall : Forall (λ p : Q * Q, (p.2 - 100 < 30)%Q)
                   [(1, 101); (10, 111); (18, 129)]%Q).
  { repeat constructor. }
  destruct (unconfigured_emergency_holds _ "east" 100 100 100 _ HL Hwf Hall)
    as (_ & _ & _ & c'' & Hrun & Hst & _).
  exists c''. split; [exact Hrun | exact Hst].
Defined.

(** ** The override invariant

    [override_wf] holds of a new controller and is kept by every method,
    so the comparison with the override's end time in [update_state] never
    meets [None]. *)

Lemma override_wf_fields (c c' : Controller) :
  override_fields c' = override_fields c → override_wf c → override_wf c'.
Proof. unfold override_wf. intros [= -> ->]. done. Qed.

Lemma override_wf_init (cfg : SignalConfig) : override_wf (init cfg).
Proof. intros H. discriminate H. Qed.

Lemma override_wf_configured (cfg : SignalConfig) (lane_names : list string) :
  override_wf (configured cfg lane_names).
Proof. intros H. discriminate H. Qed.

Lemma _advance_to_next_lane_fields (c c' : Controller) :
  Base._advance_to_next_lane c = Ok c' →
  override_fields c' = override_fields c.
Proof.
  unfold Base._advance_to_next_lane. intros H.
  repeat case_match; simplify_eq; done.
Qed.

Lemma base_update_state_fields (c c' : Controller) (elapsed : Q) :
  Base.update_state elapsed c = Ok c' →
  override_fields c' = override_fields c.
Proof.
  unfold Base.update_state. intros H.
  repeat case_match; simplify_eq; try done.
  by apply _advance_to_next_lane_fields in H.
Qed.

Lemma foldl_complete_lane_fields (st : SignalState) (now : Q)
    (names : list string) : ∀ acc,
  override_fields (foldl (complete_lane st now) acc names).1
  = override_fields acc.1.
Proof.
  induction names as [|l names IH]; intros [c ts]; [done|].
  simpl. rewrite IH. unfold complete_lane.
  repeat case_match; done.
Qed.

Lemma foldl_start_lane_fields (st : SignalState) (now : Q)
    (names : list string) : ∀ acc,
  override_fields (foldl (start_lane st now) acc names).1
  = override_fields acc.1.
Proof.
  induction names as [|l names IH]; intros [c ts]; [done|].
  simpl. rewrite IH. unfold start_lane.
  repeat case_match; done.
Qed.

Lemma advance_plan_fields (c : Controller) (plan : SignalPlan)
    (ph : SignalPhase) (now : Q) :
  override_fields (advance_plan c plan ph now).1 = override_fields c.
Proof.
  unfold advance_plan. destruct (PyFloat.leb _ _); [|done].
  pose proof (foldl_complete_lane_fields (state ph) now (lanes ph) (c, []))
    as Hc.
  destruct (foldl (complete_lane _ _) _ _) as [c1 ts1]. simpl in Hc.
  simpl. destruct (phases plan !! _) as [next|]; [|done].
  by rewrite foldl_start_lane_fields.
Qed.

Lemma check_manual_override_wf (c c1 : Controller) (now : Q) :
  check_manual_override c now = Ok (Some c1) →
  override_wf c → override_wf c1.
Proof.
  unfold check_manual_override. intros H Hwf.
  repeat case_match; simplify_eq; [|done].
  intros Hf. discriminate Hf.
Qed.

Lemma check_emergency_fields (c c2 : Controller) (now : Q) :
  check_emergency c now = Some c2 →
  override_fields c2 = override_fields c.
Proof.
  unfold check_emergency. intros H. repeat case_match; by simplify_eq.
Qed.

Lemma override_wf_update_state (c c' : Controller) (elapsed now : Q)
    (ts : list StateTransition) :
  update_state c elapsed now = Ok (ts, c') → override_wf c → override_wf c'.
Proof.
  unfold update_state. intros H Hwf.
  destruct (check_manual_override c now) as [[c1|]|] eqn:Hov; simpl in H;
    [|by simplify_eq|done].
  apply check_manual_override_wf in Hov; [|done].
  destruct (check_emergency c1 now) as [c2|] eqn:Hem; [|by simplify_eq].
  apply check_emergency_fields in Hem.
  assert (Hbase : ∀ c3, Base.update_state elapsed c2 = Ok c3 →
                        override_wf c3).
  { intros c3 Hb. apply base_update_state_fields in Hb.
    apply (override_wf_fields c1); [congruence | done]. }
  destruct (_current_plan c2) as [plan|].
  - destruct (phases plan !! _current_phase_index c2) as [ph|].
    + pose proof (advance_plan_fields c2 plan ph now) as Hadv.
      destruct (advance_plan c2 plan ph now) as [c3 ts3].
      injection H as _ <-.
      apply (override_wf_fields c1); [simpl in Hadv; congruence | done].
    + destruct (Base.update_state elapsed c2) as [c3|] eqn:Hb; [|done].
      simpl in H. injection H as _ <-. by apply Hbase.
  - destruct (Base.update_state elapsed c2) as [c3|] eqn:Hb; [|done].
    simpl in H. injection H as _ <-. by apply Hbase.
Qed.

Lemma override_wf_allocate_time (c c' : Controller) (lane_data : lane_data_map)
    (t1 t2 : Q) (plan : SignalPlan) :
  allocate_time c lane_data t1 t2 = Ok (plan, c') →
  override_wf c → override_wf c'.
Proof.
  unfold allocate_time, allocate_normal, _create_emergency_plan,
    _create_phases.
  intros H. apply override_wf_fields.
  repeat case_match; simplify_eq; simpl in *;
    repeat match goal with
      | H : mbind _ _ = Ok _ |- _ =>
          unfold mbind, result_bind in H; repeat case_match; simplify_eq
      end;
    done.
Qed.

Lemma override_wf_handle_emergency (c : Controller) (L : string)
    (t1 t2 t3 : Q) :
  override_wf c → override_wf (handle_emergency c L t1 t2 t3).
Proof.
  apply override_wf_fields. unfold handle_emergency. simpl.
  by case_match.
Qed.

Lemma override_wf_override_signal (c c' : Controller) (L : string)
    (st : SignalState) (duration t1 t2 : Q) :
  override_signal c L st duration t1 t2 = Ok c' → override_wf c'.
Proof.
  unfold override_signal. case_match; [|done].
  intros [= <-] _. by eexists.
Qed.

(** ** Mutual exclusion under re-allocation *)

(** C1. At the call sequence [reallocation_trace], run from two
    configured lanes that are RED, the controller is in normal operation
    after every call and ends with [north] YELLOW while [south] is still
    GREEN: [allocate_time] installs a new plan without returning the lane
    that is GREEN to RED, so mutual exclusion does not hold there. *)
Theorem reallocation_breaks_mutual_exclusion :
  Forall (λ k, ∃ outs c,
            run (configured default_config ["north"; "south"])
                (take k reallocation_trace) = Ok (outs, c)
            ∧ normal_operation c)
         [0; 1; 2; 3; 4; 5]
  ∧ ∃ outs c,
      run (configured default_config ["north"; "south"]) reallocation_trace
      = Ok (outs, c)
      ∧ get_current_states c !! "north" = Some YELLOW
      ∧ get_current_states c !! "south" = Some GREEN
      ∧ ¬ mutual_exclusion (get_current_states c).
Proof.
  split.
  - repeat constructor;
      (eexists; eexists; split; [vm_compute; reflexivity | by split]).
  - eexists; eexists. split; [vm_compute; reflexivity|].
    split; [by vm_compute|]. split; [by vm_compute|].
    intros Hmx.
    assert (Hne : "north" = "south"); [|discriminate Hne].
    eapply (Hmx "north" "south" YELLOW GREEN); by vm_compute.
Qed.

(** ** The emergency short-circuit of [allocate_time] *)

Lemma existsb_find_is_Some {A} (f : A → bool) (l : list A) :
  existsb f l = true ↔ is_Some (find f l).
Proof.
  induction l as [|x l IH]; simpl.
  - split; [done | by intros [? ?]].
  - destruct (f x); simpl; [|done]. split; eauto.
Qed.

(** A lane with a non-empty name that reports an emergency first gets the
    one-phase plan, whatever the other lanes ask for. *)
Lemma allocate_time_emergency (c : Controller) (lane_data : lane_data_map)
    (lane : string) (t1 t2 : Q) :
  first_emergency lane_data = Some lane → lane ≠ EmptyString →
  allocate_time c lane_data t1 t2
  = Ok (mkPlan [mkPhase EMERGENCY [lane] 30 GREEN] 30 true,
        set_plan (Some (mkPlan [mkPhase EMERGENCY [lane] 30 GREEN] 30 true))
          0 t1 c).
Proof.
  unfold first_emergency, allocate_time. intros Hfind Hne.
  assert (Hex : existsb (λ p : string * LaneData, has_emergency p.2) lane_data
                = true).
  { apply existsb_find_is_Some.
    destruct (find _ lane_data); [eauto | discriminate]. }
  rewrite Hex, Hfind. unfold truthy.
  destruct (String.eqb_spec lane EmptyString); [done|]. done.
Qed.

(** C3. A lane-data map whose only lane, named by the empty string,
    reports an emergency: [if emergency_lane:] takes the empty name for
    [None], and [allocate_time] returns the ordinary two-phase plan with
    [emergency_override] false instead of the one-phase emergency plan. *)
Theorem unnamed_emergency_lane_not_preempted (t1 t2 : Q) :
  has_emergency (emergency_on 1) = true
  ∧ ∃ c', allocate_time (configured default_config [EmptyString])
            [(EmptyString, emergency_on 1)] t1 t2
          = Ok (mkPlan [ mkPhase THROUGH [EmptyString] 60 GREEN;
                         mkPhase THROUGH [EmptyString] 3 YELLOW ] 63 false,
                c').
Proof.
  split; [done|]. eexists. vm_compute. reflexivity.
Qed.

(** ** Degenerate inputs *)

(** With all priorities zero every lane is allocated [min_green]. *)
Lemma zero_priority_fallback (c : Controller) (lane_data : lane_data_map)
    (priorities : list (string * Q)) :
  (Qsum (snd <$> priorities) == 0)%Q →
  _allocate_green_times c priorities lane_data
  = Ok ((λ p, (p.1, min_green (config c))) <$> priorities).
Proof.
  intros H. unfold _allocate_green_times.
  apply PyFloatFacts.eqb_eq in H. by rewrite H.
Qed.

(** The empty lane-data map on any controller without pending phases and
    with a positive [min_cycle_time]. *)
Lemma allocate_time_empty_raises_always (c : Controller) (t1 t2 : Q) :
  _pending_pedestrian_phases c = [] → _pending_turn_phases c = [] →
  (0 < min_cycle_time (config c))%Z →
  allocate_time c [] t1 t2 = Raise ZeroDivisionError.
Proof.
  intros Hp Ht Hmin. unfold allocate_time, allocate_normal. simpl.
  rewrite Hp, Ht. simpl.
  assert (Hlt : PyFloat.ltb (Qsum []) (inject_Z (min_cycle_time (config c)))
                = true).
  { apply PyFloatFacts.ltb_lt. change (Qsum []) with (inject_Z 0).
    by rewrite <- Zlt_Qlt. }
  by rewrite Hlt.
Qed.

(** C5. For the empty lane-data map a controller with the default
    configuration raises: no phase is created, the phase-duration sum is
    0, which is below [min_cycle_time], and the scale factor
    [min_cycle_time / total_cycle_time] divides by that zero. *)
Theorem allocate_time_empty_raises (t1 t2 : Q) :
  _pending_pedestrian_phases (init default_config) = []
  ∧ _pending_turn_phases (init default_config) = []
  ∧ allocate_time (init default_config) [] t1 t2 = Raise ZeroDivisionError.
Proof.
  split; [done|]. split; [done|].
  by apply allocate_time_empty_raises_always.
Qed.

(** ** Bounds of an allocation *)

Section Bounds.
Context (cfg : SignalConfig).
Hypothesis green_range : (min_green cfg ≤ max_green cfg)%Z.

Lemma trunc_nonneg (x : Q) : (0 <= x)%Q → (0 ≤ PyFloat.trunc x)%Z.
Proof.
  intros Hx. unfold PyFloat.trunc.
  destruct (PyFloat.ltb x 0) eqn:E.
  - apply PyFloatFacts.ltb_lt in E. exfalso. by apply (Qlt_not_le _ _ E).
  - change 0%Z with (Qfloor 0). by apply Qfloor_resp_le.
Qed.

Lemma allocate_lane_bounds (total_priority priority : Q) (data : LaneData) :
  green_ok cfg (allocate_lane cfg total_priority priority data).
Proof.
  unfold green_ok, allocate_lane.
  destruct (PyFloat.ltb 50 (queue_length data)) eqn:E; [|lia].
  apply PyFloatFacts.ltb_lt in E.
  assert (0 ≤ PyFloat.trunc (queue_length data / 10))%Z; [|lia].
  apply trunc_nonneg. apply Qle_shift_div_l; [done|].
  apply Qlt_le_weak. eapply Qlt_trans; [|exact E]. done.
Qed.

Lemma allocate_lanes_bounds (total_priority : Q) (lane_data : lane_data_map)
    (priorities : list (string * Q)) : ∀ green_times,
  allocate_lanes cfg total_priority lane_data priorities = Ok green_times →
  Forall (λ p, green_ok cfg p.2) green_times.
Proof.
  induction priorities as [|[lane priority] rest IH]; simpl; intros gts H.
  - by inversion H.
  - destruct (assoc_get lane lane_data) as [data|]; [|done].
    destruct (allocate_lanes cfg total_priority lane_data rest) as [gts'|];
      [|done].
    simpl in H. inversion H; subst. constructor; [|by apply IH].
    apply allocate_lane_bounds.
Qed.

(** Every through GREEN phase built from allocated green times lasts an
    allocated green time. *)
Lemma through_phases_bounds (green_times : list (string * Z)) (ph : SignalPhase) :
  Forall (λ p, green_ok cfg p.2) green_times →
  ph ∈ through_phases cfg (sorted_desc snd green_times) →
  state ph = GREEN →
  phase_type ph = THROUGH
  ∧ (inject_Z (min_green cfg) <= duration ph <= inject_Z (max_green cfg))%Q.
Proof.
  intros Hall Hin Hgreen. unfold through_phases in Hin.
  apply list_elem_of_In, in_flat_map in Hin as ([lane g] & Hp & Hin).
  apply list_elem_of_In, sorted_desc_elem_of in Hp.
  rewrite Forall_forall in Hall. specialize (Hall _ Hp) as [Hlo Hhi].
  simpl in *. destruct (g <=? 0)%Z; [done|].
  destruct Hin as [<-|[<-|[]]]; [|done]. simpl.
  split; [done|]. by rewrite <- !Zle_Qle.
Qed.
End Bounds.

Lemma _allocate_green_times_bounds (c : Controller)
    (priorities : list (string * Q)) (lane_data : lane_data_map) green_times :
  (min_green (config c) ≤ max_green (config c))%Z →
  _allocate_green_times c priorities lane_data = Ok green_times →
  Forall (λ p, green_ok (config c) p.2) green_times.
Proof.
  intros Hrange. unfold _allocate_green_times.
  destruct (PyFloat.eqb _ 0).
  - intros H. inversion H. apply Forall_fmap, Forall_true.
    intros p. unfold green_ok. simpl. lia.
  - by apply allocate_lanes_bounds.
Qed.

Lemma allocate_normal_rescaled (c : Controller) (lane_data : lane_data_map)
    (t1 t2 : Q) plan c' :
  allocate_normal c lane_data t1 t2 = Ok (plan, c') →
  ∃ green_times,
    _allocate_green_times c (_calculate_priorities c t1 lane_data) lane_data
    = Ok green_times
    ∧ rescaled (config c) (_create_phases c green_times).1 plan.
Proof.
  unfold allocate_normal.
  destruct (_allocate_green_times _ _ _) as [gts|]; [|done].
  intros H. exists gts. split; [done|]. simpl in H.
  set (raw := (_ ++ _)%list) in H.
  change (_create_phases c gts).1 with raw.
  destruct (PyFloat.ltb (Qsum (duration <$> raw)) _) eqn:Elo.
  - destruct (PyFloat.eqb _ 0); [done|]. simpl in H. inversion H; subst.
    apply ScaledUp. by apply PyFloatFacts.ltb_lt.
  - destruct (PyFloat.ltb _ (Qsum (duration <$> raw))) eqn:Ehi.
    + destruct (PyFloat.eqb _ 0); [done|]. simpl in H. inversion H; subst.
      apply ScaledDown. by apply PyFloatFacts.ltb_lt.
    + simpl in H. inversion H; subst. apply Kept.
      split; by apply PyFloatFacts.ltb_ge.
Qed.

Lemma rescaled_total_bounds (cfg : SignalConfig) raw plan :
  (min_cycle_time cfg ≤ max_cycle_time cfg)%Z →
  rescaled cfg raw plan →
  (inject_Z (min_cycle_time cfg) <= total_cycle_time plan
   <= inject_Z (max_cycle_time cfg))%Q.
Proof.
  intros Hrange [H|H|H]; simpl.
  - done.
  - split; [apply Qle_refl | by rewrite <- Zle_Qle].
  - split; [by rewrite <- Zle_Qle | apply Qle_refl].
Qed.

(** C4 (amended). For a non-emergency lane-data map for which
    [allocate_time] returns a plan, with [min_green ≤ max_green] and
    [min_cycle_time ≤ max_cycle_time]: every allocated green time, and so
    every through GREEN phase as [_create_phases] builds it, lies in
    [[min_green, max_green]]; the plan's [total_cycle_time] lies in
    [[min_cycle_time, max_cycle_time]]; the plan's phases are those
    phases, kept when their sum is in the cycle-time range and otherwise
    all multiplied by [min_cycle_time / sum] or [max_cycle_time / sum]
    (after which the green-time range is no longer promised). *)
Theorem allocation_bounds (c : Controller) (lane_data : lane_data_map)
    (t1 t2 : Q) (plan : SignalPlan) (c' : Controller) :
  (min_green (config c) ≤ max_green (config c))%Z →
  (min_cycle_time (config c) ≤ max_cycle_time (config c))%Z →
  existsb (λ p, has_emergency p.2) lane_data = false →
  allocate_time c lane_data t1 t2 = Ok (plan, c') →
  (inject_Z (min_cycle_time (config c)) <= total_cycle_time plan
   <= inject_Z (max_cycle_time (config c)))%Q
  ∧ ∃ green_times,
      _allocate_green_times c (_calculate_priorities c t1 lane_data) lane_data
      = Ok green_times
      ∧ Forall (λ p, green_ok (config c) p.2) green_times
      ∧ (∀ ph, ph ∈ through_phases (config c) (sorted_desc snd green_times) →
               state ph = GREEN →
               (inject_Z (min_green (config c)) <= duration ph
                <= inject_Z (max_green (config c)))%Q)
      ∧ rescaled (config c) (_create_phases c green_times).1 plan.
Proof.
  intros Hgreen Hcycle Hnone. unfold allocate_time. rewrite Hnone.
  intros H. apply allocate_normal_rescaled in H as (gts & Hgts & Hres).
  split; [by eapply rescaled_total_bounds|].
  exists gts.
  pose proof (_allocate_green_times_bounds _ _ _ _ Hgreen Hgts) as Hall.
  repeat split; try done.
  all: by eapply through_phases_bounds.
Qed.

Lemma allocation_bounds_witness :
  ∃ plan c',
    allocate_time (init default_config) north_south 0 0 = Ok (plan, c')
    ∧ (40 <= total_cycle_time plan <= 180)%Q.
Proof.
  destruct (allocate_time (init default_config) north_south 0 0)
    as [[plan c']|e] eqn:E; [|by vm_compute in E].
  exists plan, c'. split; [reflexivity|].
  assert (Hg : (min_green (config (init default_config))
                ≤ max_green (config (init default_config)))%Z)
    by (by vm_compute).
  assert (Hc : (min_cycle_time (config (init default_config))
                ≤ max_cycle_time (config (init default_config)))%Z)
    by (by vm_compute).
  exact (proj1 (allocation_bounds (init default_config) north_south 0 0
                  plan c' Hg Hc eq_refl E)).
Defined.

(** C4 (counterexample). With the default configuration and fourteen idle
    lanes the phase-duration sum 182 exceeds [max_cycle_time] = 180; every
    phase is multiplied by 180/182, and the through GREEN phases last
    1800/182 < 10 = [min_green] seconds. *)
Lemma rescaling_leaves_green_range :
  existsb (λ p, has_emergency p.2) idle_lanes = false
  ∧ ∃ plan c' ph,
      allocate_time (init default_config) idle_lanes 0 0 = Ok (plan, c')
      ∧ ph ∈ phases plan
      ∧ phase_type ph = THROUGH ∧ state ph = GREEN
      ∧ ¬ (inject_Z (min_green default_config) <= duration ph
           <= inject_Z (max_green default_config))%Q.
Proof.
  split; [reflexivity|].
  destruct (allocate_time (init default_config) idle_lanes 0 0)
    as [[plan c']|e] eqn:E; [|by vm_compute in E].
  vm_compute in E. injection E as <- <-.
  eexists; eexists; eexists. split; [reflexivity|].
  split; [apply list_elem_of_here|].
  split; [reflexivity|]. split; [reflexivity|].
  intros [Hlo _]. revert Hlo. by vm_compute.
Qed.

(** ** Mutual exclusion within one plan

    From configured lanes that are all RED, one allocation followed by
    any number of [update_state] calls keeps at most one lane GREEN or
    YELLOW: the plan is a GREEN and a YELLOW phase per lane, and only the
    lane of the current phase is ever set. *)

Lemma through_phases_pairs (cfg : SignalConfig) (l : list (string * Z)) :
  lane_pairs (through_phases cfg l).
Proof.
  induction l as [|[name g] l IH]; simpl; [constructor|].
  destruct (g <=? 0)%Z; [done|]. simpl. by constructor.
Qed.

Lemma scale_phases_pairs (k : Q) (l : list SignalPhase) :
  lane_pairs l → lane_pairs (scale_phases k l).
Proof. induction 1; simpl; by constructor. Qed.

Lemma all_red_others_red states l : all_red states → others_red states l.
Proof. intros H l' s Hs _. by eapply H. Qed.

Lemma lane_pairs_cursor states l :
  lane_pairs l → all_red states → cursor_ok states l.
Proof.
  intros [|] Hred; [by constructor|].
  constructor; [done | by apply all_red_others_red].
Qed.

Lemma cursor_ok_mutual_exclusion states l :
  cursor_ok states l → mutual_exclusion states.
Proof.
  assert (Hothers : ∀ x, others_red states x → mutual_exclusion states).
  { intros x Hx l1 l2 s1 s2 H1 H2 Hn1 Hn2.
    destruct (decide (l1 = x)) as [->|Hne1]; [|by destruct (Hn1 (Hx _ _ H1 Hne1))].
    destruct (decide (l2 = x)) as [->|Hne2]; [done|].
    by destruct (Hn2 (Hx _ _ H2 Hne2)). }
  intros [Hred| |]; eauto.
  intros l1 l2 s1 s2 H1 _ Hn1 _. by destruct (Hn1 (Hred _ _ H1)).
Qed.

Lemma others_red_insert states l s :
  others_red states l → others_red (<[l := s]> states) l.
Proof.
  intros H l' s' Hl' Hne. rewrite lookup_insert_ne in Hl' by done.
  by eapply H.
Qed.

Lemma all_red_insert_red states l :
  others_red states l → all_red (<[l := RED]> states).
Proof.
  intros H l' s'. destruct (decide (l' = l)) as [->|Hne].
  - rewrite lookup_insert_eq. by intros [= <-].
  - rewrite lookup_insert_ne by done. intros Hs. by eapply H.
Qed.

Lemma all_red_absent states l :
  others_red states l → states !! l = None → all_red states.
Proof.
  intros H Hnone l' s' Hs. destruct (decide (l' = l)) as [->|Hne].
  - congruence.
  - by eapply H.
Qed.

Lemma drop_lookup_cons {A} (l : list A) (i : nat) (x : A) (rest : list A) :
  drop i l = x :: rest → l !! i = Some x ∧ drop (S i) l = rest.
Proof.
  revert i. induction l as [|y l IH]; intros [|i] H; simpl in *;
    try discriminate.
  - by injection H as -> ->.
  - by apply IH.
Qed.

Lemma drop_nil_lookup {A} (l : list A) (i : nat) :
  drop i l = [] → l !! i = None.
Proof.
  revert i. induction l as [|y l IH]; intros [|i] H; simpl in *;
    try done. by apply IH.
Qed.

Lemma foldl_complete_lane_spec (st : SignalState) (now : Q)
    (names : list string) : ∀ acc,
  let r := foldl (complete_lane st now) acc names in
  frame r.1 = frame acc.1
  ∧ _current_phase_index r.1 = _current_phase_index acc.1
  ∧ _states r.1
    = foldl (λ m l, set_if_present l (after_phase st) m) (_states acc.1) names.
Proof.
  induction names as [|l names IH]; intros [c ts]; [done|].
  cbn [foldl]. destruct (IH (complete_lane st now (c, ts) l)) as (Hf & Hi & Hs).
  cbv zeta in *. rewrite Hf, Hi, Hs. unfold complete_lane, set_if_present.
  cbn [fst].
  destruct (_states c !! l) as [old|]; [|done].
  by destruct (decide (old = GREEN)).
Qed.

Lemma foldl_start_lane_spec (st : SignalState) (now : Q)
    (names : list string) : ∀ acc,
  let r := foldl (start_lane st now) acc names in
  frame r.1 = frame acc.1
  ∧ _current_phase_index r.1 = _current_phase_index acc.1
  ∧ _states r.1
    = foldl (λ m l, set_if_present l st m) (_states acc.1) names.
Proof.
  induction names as [|l names IH]; intros [c ts]; [done|].
  cbn [foldl]. destruct (IH (start_lane st now (c, ts) l)) as (Hf & Hi & Hs).
  cbv zeta in *. rewrite Hf, Hi, Hs. unfold start_lane, set_if_present.
  cbn [fst].
  by destruct (_states c !! l).
Qed.

(** What a phase change does to the lane states and to the cursor. *)
Lemma advance_plan_spec (c : Controller) (plan : SignalPlan)
    (ph : SignalPhase) (now : Q) :
  let r := advance_plan c plan ph now in
  frame r.1 = frame c
  ∧ (r = (c, [])
     ∨ _current_phase_index r.1 = S (_current_phase_index c)
       ∧ _states r.1
         = let completed :=
             foldl (λ m l, set_if_present l (after_phase (state ph)) m)
               (_states c) (lanes ph) in
           match phases plan !! S (_current_phase_index c) with
           | Some next =>
               foldl (λ m l, set_if_present l (state next) m) completed
                 (lanes next)
           | None => completed
           end).
Proof.
  unfold advance_plan. destruct (PyFloat.leb _ _); [|by split; [|left]].
  destruct (foldl_complete_lane_spec (state ph) now (lanes ph) (c, []))
    as (Hf & Hi & Hs).
  destruct (foldl (complete_lane _ _) _ _) as [c1 ts1]. simpl in Hf, Hi, Hs.
  cbn [_current_phase_index set_plan].
  rewrite Hi. destruct (phases plan !! S _) as [next|].
  - destruct (foldl_start_lane_spec (state next) now (lanes next)
                (set_plan (_current_plan c1) (S (_current_phase_index c)) now
                   c1, ts1)) as (Hf' & Hi' & Hs').
    cbv zeta. rewrite Hf', Hi', Hs'. simpl.
    split; [exact Hf | right]. by rewrite Hs.
  - cbv zeta. simpl. split; [exact Hf | right]. by rewrite Hs.
Qed.

Lemma others_red_set_if_present states l s :
  others_red states l → others_red (set_if_present l s states) l.
Proof.
  unfold set_if_present. destruct (states !! l); [|done].
  apply others_red_insert.
Qed.

Lemma all_red_set_red states l :
  others_red states l → all_red (set_if_present l RED states).
Proof.
  unfold set_if_present. destruct (states !! l) eqn:E.
  - apply all_red_insert_red.
  - intros H. by apply (all_red_absent states l).
Qed.

Lemma single_plan_inv_intro (c : Controller) (plan : SignalPlan) :
  frame c = (false, false, None, Some plan) →
  cursor_ok (_states c) (drop (_current_phase_index c) (phases plan)) →
  single_plan_inv c.
Proof. intros [= ? ? ? ?] ?. repeat split; try done. by exists plan. Qed.

Lemma update_state_single_plan (c : Controller) (elapsed now : Q) :
  single_plan_inv c →
  ∃ ts c', update_state c elapsed now = Ok (ts, c') ∧ single_plan_inv c'.
Proof.
  intros ([Hov Hem] & Hact & plan & Hplan & Hcur).
  assert (Hframe : frame c = (false, false, None, Some plan))
    by (unfold frame; by rewrite Hov, Hem, Hact, Hplan).
  unfold update_state, check_manual_override, check_emergency.
  rewrite Hov. simpl. rewrite Hem, Hplan.
  inversion Hcur as [Hred Hd | l ty1 ty2 d1 d2 rest Hp Ho Hd
                            | l ty d rest Hp Ho Hd]; symmetry in Hd.
  - rewrite (drop_nil_lookup _ _ Hd). unfold Base.update_state.
    rewrite Hact. simpl. eexists _, _. split; [done|].
    by apply (single_plan_inv_intro c plan).
  - apply drop_lookup_cons in Hd as [Hi Hd]. rewrite Hi.
    set (ph := mkPhase ty1 [l] d1 GREEN) in *.
    destruct (advance_plan_spec c plan ph now) as (Hf & Hstep).
    destruct (advance_plan c plan ph now) as [c' ts]. simpl in Hf, Hstep.
    exists ts, c'. split; [done|].
    apply (single_plan_inv_intro c' plan); [congruence|].
    destruct Hstep as [[= -> _] | [Hidx Hst]].
    + rewrite (drop_S _ _ _ Hi), Hd. by constructor.
    + apply drop_lookup_cons in Hd as Hnext. destruct Hnext as [Hnext _].
      rewrite Hnext in Hst. simpl in Hst. rewrite Hidx, Hd, Hst.
      constructor; [done|]. by do 2 apply others_red_set_if_present.
  - apply drop_lookup_cons in Hd as [Hi Hd]. rewrite Hi.
    set (ph := mkPhase ty [l] d YELLOW) in *.
    destruct (advance_plan_spec c plan ph now) as (Hf & Hstep).
    destruct (advance_plan c plan ph now) as [c' ts]. simpl in Hf, Hstep.
    exists ts, c'. split; [done|].
    apply (single_plan_inv_intro c' plan); [congruence|].
    destruct Hstep as [[= -> _] | [Hidx Hst]].
    + rewrite (drop_S _ _ _ Hi), Hd. by constructor.
    + rewrite Hidx, Hd. pose proof (all_red_set_red _ _ Ho) as Hall.
      destruct Hp as [|l2 ty1 ty2 d1 d2 rest Hp].
      * rewrite (drop_nil_lookup _ _ Hd) in Hst. rewrite Hst.
        by constructor.
      * apply drop_lookup_cons in Hd as [Hnext _].
        rewrite Hnext in Hst. simpl in Hst. rewrite Hst.
        constructor; [done|].
        by apply others_red_set_if_present, all_red_others_red.
Qed.

Lemma ticks_single_plan (l : list (Q * Q)) : ∀ c,
  single_plan_inv c →
  ∃ outs c', run c (ticks l) = Ok (outs, c') ∧ single_plan_inv c'.
Proof.
  induction l as [|[elapsed now] l IH]; intros c Hinv.
  - by exists [], c.
  - destruct (update_state_single_plan c elapsed now Hinv)
      as (ts & c1 & Hstep & Hinv1).
    destruct (IH c1 Hinv1) as (outs & c2 & Hrun & Hinv2).
    exists (Transitions ts :: outs), c2. simpl. rewrite Hstep. simpl.
    by rewrite Hrun.
Qed.

Lemma all_red_configured (names : list string) :
  all_red (list_to_map ((λ l, (l, RED)) <$> names)).
Proof.
  intros l s Hs. apply elem_of_list_to_map_2 in Hs.
  apply list_elem_of_fmap in Hs as (l' & [= -> ->] & _). done.
Qed.

Lemma allocate_normal_state (c c' : Controller) (lane_data : lane_data_map)
    (t1 t2 : Q) (plan : SignalPlan) :
  allocate_normal c lane_data t1 t2 = Ok (plan, c') →
  c' = set_plan (Some plan) 0 t2
         (set_pending_turn_phases [] (set_pending_pedestrian_phases [] c)).
Proof.
  unfold allocate_normal, _create_phases. intros H.
  destruct (_allocate_green_times _ _ _) as [gts|]; [|done]. simpl in H.
  repeat case_match; simpl in H; by simplify_eq.
Qed.

Lemma rescaled_pairs (cfg : SignalConfig) raw plan :
  lane_pairs raw → rescaled cfg raw plan → lane_pairs (phases plan).
Proof. intros Hp [?|?|?]; simpl; [done | | ]; by apply scale_phases_pairs. Qed.

(** From configured lanes that are all RED, one allocation for a
    non-emergency lane-data map and then any [update_state] calls: no call
    raises, and at most one lane is GREEN or YELLOW afterwards. *)
Lemma single_plan_mutual_exclusion (cfg : SignalConfig)
    (names : list string) (lane_data : lane_data_map) (t1 t2 : Q)
    (plan : SignalPlan) (c1 : Controller) (l : list (Q * Q)) :
  existsb (λ p, has_emergency p.2) lane_data = false →
  allocate_time (configured cfg names) lane_data t1 t2 = Ok (plan, c1) →
  ∃ outs c2, run c1 (ticks l) = Ok (outs, c2)
             ∧ normal_operation c2
             ∧ mutual_exclusion (get_current_states c2).
Proof.
  intros Hnone. unfold allocate_time. rewrite Hnone. intros Halloc.
  assert (Hinv : single_plan_inv c1).
  { pose proof (allocate_normal_state _ _ _ _ _ _ Halloc) as ->.
    apply allocate_normal_rescaled in Halloc as (gts & _ & Hres).
    apply (single_plan_inv_intro _ plan); [done|]. simpl.
    apply lane_pairs_cursor; [|apply all_red_configured].
    eapply rescaled_pairs; [|exact Hres]. simpl.
    rewrite app_nil_r. apply through_phases_pairs. }
  destruct (ticks_single_plan l c1 Hinv) as (outs & c2 & Hrun & Hinv2).
  exists outs, c2. split; [done|].
  destruct Hinv2 as (Hnormal & _ & plan2 & _ & Hcur).
  split; [done|]. by eapply cursor_ok_mutual_exclusion.
Qed.

(** ** The fairness boost *)

(** C6 (counterexample). A lane without demand that has never been green
    ([_last_green_times] has no entry for it) gets no boost at any clock
    reading, long past the fairness threshold too, and its priority stays
    below that of a lane with one vehicle. *)
Lemma never_green_lane_is_never_boosted :
  _last_green_times (configured default_config ["north"; "south"]) !! "north"
  = None
  ∧ ∀ now : Q,
      fairness_boost default_config
        (_last_green_times (configured default_config ["north"; "south"]))
        now "north" = 0%Q
      ∧ (lane_priority (configured default_config ["north"; "south"]) now
           "north" (demand 0)
         < lane_priority (configured default_config ["north"; "south"]) now
             "south" (demand 1))%Q.
Proof.
  split; [done|]. intros now. split; [done|]. by vm_compute.
Qed.

Section Fairness.
Context (c : Controller) (lane : string) (last_green : Q).
Hypothesis recorded : _last_green_times c !! lane = Some last_green.
Hypothesis positive : (0 < last_green)%Q.

Local Abbreviation threshold := (fairness_threshold (config c)).
Local Abbreviation factor := (fairness_boost_factor (config c)).

Lemma fairness_boost_unfold (now : Q) :
  fairness_boost (config c) (_last_green_times c) now lane
  = if PyFloat.ltb threshold (now - last_green)
    then ((now - last_green - threshold) * factor)%Q else 0%Q.
Proof.
  unfold fairness_boost. rewrite recorded. unfold default.
  cbn [from_option id].
  by apply PyFloatFacts.ltb_lt in positive as ->.
Qed.

Lemma fairness_boost_waiting (now : Q) :
  (threshold < now - last_green)%Q →
  fairness_boost (config c) (_last_green_times c) now lane
  = ((now - last_green - threshold) * factor)%Q.
Proof.
  intros H. rewrite fairness_boost_unfold.
  by apply PyFloatFacts.ltb_lt in H as ->.
Qed.

Lemma fairness_boost_recent (now : Q) :
  (now - last_green <= threshold)%Q →
  fairness_boost (config c) (_last_green_times c) now lane = 0%Q.
Proof.
  intros H. rewrite fairness_boost_unfold.
  by apply PyFloatFacts.ltb_ge in H as ->.
Qed.

Lemma fairness_boost_formula (now : Q) :
  (0 < factor)%Q →
  (fairness_boost (config c) (_last_green_times c) now lane
   == PyFloat.max 0 ((now - last_green - threshold) * factor))%Q.
Proof.
  intros Hf. unfold PyFloat.max.
  destruct (Qlt_le_dec threshold (now - last_green)) as [Hw|Hr].
  - rewrite fairness_boost_waiting by done.
    assert (Hpos : (0 < (now - last_green - threshold) * factor)%Q).
    { apply Qmult_lt_0_compat; [lra | done]. }
    apply PyFloatFacts.ltb_lt in Hpos as ->. reflexivity.
  - rewrite fairness_boost_recent by done.
    assert (Hneg : ((now - last_green - threshold) * factor <= 0)%Q).
    { rewrite <- (Qmult_0_l factor).
      apply Qmult_le_compat_r; [lra | by apply Qlt_le_weak]. }
    apply PyFloatFacts.ltb_ge in Hneg as ->. reflexivity.
Qed.

Lemma priority_outgrows (now P : Q) (data : LaneData) :
  (0 < factor)%Q → (0 <= base_priority data)%Q → (0 <= P)%Q →
  (last_green + threshold + P / factor < now)%Q →
  (P < lane_priority c now lane data)%Q.
Proof.
  intros Hf Hbase HP Hnow.
  assert (Hfne : ¬ (factor == 0)%Q) by (intros E; rewrite E in Hf; lra).
  assert (Hdiv : (0 <= P / factor)%Q) by (by apply Qle_shift_div_l; lra).
  assert (Hw : (threshold < now - last_green)%Q) by lra.
  assert (Hgrow : (P < (now - last_green - threshold) * factor)%Q).
  { assert (HPf : (P / factor * factor == P)%Q) by (field; exact Hfne).
    rewrite <- HPf at 1.
    apply Qmult_lt_compat_r; [done | lra]. }
  unfold lane_priority. rewrite fairness_boost_waiting by done.
  eapply Qlt_le_trans; [|apply PyFloatFacts.max_lub_r].
  lra.
Qed.
End Fairness.

(** C6 (amended). For a lane whose last green time is recorded (a
    positive entry of [_last_green_times]) and a positive boost factor,
    the boost is [max(0, (time_since_last_green − fairness_threshold) ·
    fairness_boost_factor)], and the lane's priority, even without any
    demand, exceeds any static priority [P] once the clock has passed
    [last_green + fairness_threshold + P / fairness_boost_factor].  A lane
    that has never been green has no entry and gets no boost. *)
Theorem fairness_boost_after_green (c : Controller) (lane : string)
    (last_green now P : Q) (data : LaneData) :
  _last_green_times c !! lane = Some last_green →
  (0 < last_green)%Q →
  (0 < fairness_boost_factor (config c))%Q →
  (0 <= base_priority data)%Q →
  (0 <= P)%Q →
  (fairness_boost (config c) (_last_green_times c) now lane
   == PyFloat.max 0 ((now - last_green - fairness_threshold (config c))
                     * fairness_boost_factor (config c)))%Q
  ∧ ((last_green + fairness_threshold (config c)
      + P / fairness_boost_factor (config c) < now)%Q →
     (P < lane_priority c now lane data)%Q).
Proof.
  intros Hrec Hpos Hf Hbase HP. split.
  - by apply fairness_boost_formula.
  - by apply priority_outgrows.
Qed.

Lemma fairness_boost_after_green_witness :
  (lane_priority north_waited 230 "south" (demand 10)
   < lane_priority north_waited 230 "north" (demand 0))%Q.
Proof.
  assert (Hrec : _last_green_times north_waited !! "north" = Some 100%Q)
    by (by vm_compute).
  assert (Hp : (lane_priority north_waited 230 "south" (demand 10) == 10)%Q)
    by (by vm_compute).
  rewrite Hp.
  apply (fairness_boost_after_green north_waited "north" 100 230 10
           (demand 0) Hrec); by vm_compute.
Defined.

(** ** Time sources of [update_state] *)

Lemma check_manual_override_plan (c c1 : Controller) (now : Q) :
  check_manual_override c now = Ok (Some c1) →
  _current_plan c1 = _current_plan c
  ∧ _current_phase_index c1 = _current_phase_index c.
Proof.
  unfold check_manual_override.
  destruct (_manual_override_active c); [|by intros [= <-]].
  destruct (_manual_override_end_time c); [|done].
  destruct (PyFloat.leb _ _); [|done]. by intros [= <-].
Qed.

Lemma check_emergency_plan (c c2 : Controller) (now : Q) :
  check_emergency c now = Some c2 →
  _current_plan c2 = _current_plan c
  ∧ _current_phase_index c2 = _current_phase_index c.
Proof.
  unfold check_emergency.
  destruct (_emergency_active c); [|by intros [= <-]].
  destruct (emergency_expired c now); [|done]. by intros [= <-].
Qed.

(** C7 (amended). While a phase of the plan is current, the result of
    [update_state] (transitions and next state) is the same for every
    [elapsed_time]: phase progression and the expiry of the override and
    of the emergency hold are decided by the clock reading taken inside
    the method.  Runs are determined by the calls together with the clock
    readings they meet. *)
Theorem update_state_ignores_elapsed_time (c : Controller) (plan : SignalPlan)
    (e1 e2 now : Q) :
  _current_plan c = Some plan →
  _current_phase_index c < length (phases plan) →
  update_state c e1 now = update_state c e2 now.
Proof.
  intros Hplan Hidx. unfold update_state.
  destruct (check_manual_override c now) as [[c1|]|] eqn:Hov; simpl; try done.
  apply check_manual_override_plan in Hov as [Hp1 Hi1].
  destruct (check_emergency c1 now) as [c2|] eqn:Hem; [|done].
  apply check_emergency_plan in Hem as [Hp2 Hi2].
  rewrite Hp2, Hp1, Hplan, Hi2, Hi1.
  apply lookup_lt_is_Some_2 in Hidx as [ph ->]. done.
Qed.

Lemma update_state_ignores_elapsed_time_witness :
  update_state allocated 1 45 = update_state allocated 45 45.
Proof.
  destruct (_current_plan allocated) as [plan|] eqn:Hplan;
    [|by vm_compute in Hplan].
  apply (update_state_ignores_elapsed_time allocated plan 1 45 45 Hplan).
  vm_compute in Hplan. injection Hplan as <-. vm_compute. lia.
Defined.

(** C7 (counterexample). The same two calls, [allocate_time(north_south)]
    and [update_state(1.0)], with the same arguments: met at clock 0 and
    45 the second returns two transitions and [north] ends YELLOW; met at
    clock 0 and 1 it returns none and [north] stays RED. *)
Lemma same_calls_different_clock :
  ∃ outs1 c1 outs2 c2,
    run (configured default_config ["north"; "south"])
      [ (AllocateTime north_south, (0, 0)%Q); (UpdateState 1, (45, 45)%Q) ]
    = Ok (outs1, c1)
    ∧ run (configured default_config ["north"; "south"])
        [ (AllocateTime north_south, (0, 0)%Q); (UpdateState 1, (1, 1)%Q) ]
      = Ok (outs2, c2)
    ∧ outs1 !! 1 ≠ outs2 !! 1
    ∧ get_current_states c1 !! "north" = Some YELLOW
    ∧ get_current_states c2 !! "north" = Some RED.
Proof.
  do 4 eexists.
  split; [vm_compute; reflexivity|].
  split; [vm_compute; reflexivity|].
  split; [by vm_compute|]. split; by vm_compute.
Qed.

(** ** Coordination quality *)

Module QualityFacts.
Import Coordinator NetworkInputs.

(** C8 (counterexample). Before any vehicle is recorded,
    [get_network_metrics] reports 0 stops per vehicle and a coordination
    quality of 0, not 1: the score is computed only under
    [if self._vehicle_count > 0]. *)
Lemma quality_of_empty_accumulator :
  (stops_per_vehicle (get_network_metrics (init empty_network)) == 0)%Q
  ∧ ¬ (coordination_quality (get_network_metrics (init empty_network)) == 1)%Q.
Proof. split; by vm_compute. Qed.

(** One vehicle with one stop scores 1/2, two vehicles with three stops
    score 5/8: the two branches of the score do not meet at one stop per
    vehicle. *)
Lemma quality_rises_past_one_stop :
  let m1 := update_metrics (init empty_network) 100 1 in
  let m2 := update_metrics (update_metrics (init empty_network) 100 1) 100 2 in
  (stops_per_vehicle (get_network_metrics m1)
   < stops_per_vehicle (get_network_metrics m2))%Q
  ∧ (coordination_quality (get_network_metrics m1)
     < coordination_quality (get_network_metrics m2))%Q.
Proof. split; by vm_compute. Qed.

Ltac score_cases :=
  unfold score, PyFloat.max, Qdiv;
  change (/ 2)%Q with (1 # 2)%Q; change (/ 4)%Q with (1 # 4)%Q;
  repeat match goal with
    | |- context [PyFloat.leb ?x ?y] =>
        let E := fresh "E" in
        destruct (PyFloat.leb x y) eqn:E;
        [apply PyFloatFacts.leb_le in E | apply PyFloatFacts.leb_gt in E]
    | |- context [PyFloat.ltb ?x ?y] =>
        let E := fresh "E" in
        destruct (PyFloat.ltb x y) eqn:E;
        [apply PyFloatFacts.ltb_lt in E | apply PyFloatFacts.ltb_ge in E]
    end.

Lemma score_range (s : Q) : (0 <= s)%Q → (0 <= score s <= 1)%Q.
Proof. intros H. score_cases; lra. Qed.

Lemma score_zero (s : Q) : (s == 0)%Q → (score s == 1)%Q.
Proof. intros H. score_cases; lra. Qed.

Lemma score_mono (s1 s2 : Q) :
  (s1 < s2)%Q → (s2 <= 1)%Q ∨ (1 < s1)%Q → (score s2 <= score s1)%Q.
Proof. intros H Hr. score_cases; destruct Hr; lra. Qed.

Lemma quality_unfold (m : t) :
  (0 < _vehicle_count m)%Z →
  coordination_quality (get_network_metrics m)
  = score (stops_per_vehicle (get_network_metrics m)).
Proof.
  intros H. unfold get_network_metrics, quality_of. simpl.
  by apply Z.ltb_lt in H as ->.
Qed.

Lemma quality_without_vehicles (m : t) :
  _vehicle_count m = 0%Z →
  coordination_quality (get_network_metrics m) = 0%Q.
Proof.
  intros H. unfold get_network_metrics, quality_of. simpl. by rewrite H.
Qed.

Lemma stops_per_vehicle_nonneg (m : t) :
  (0 < _vehicle_count m)%Z → (0 ≤ _total_stops m)%Z →
  (0 <= stops_per_vehicle (get_network_metrics m))%Q.
Proof.
  intros Hv Hs. unfold get_network_metrics. simpl.
  apply Z.ltb_lt in Hv as Hv'. rewrite Hv'.
  apply Qle_shift_div_l.
  - change 0%Q with (inject_Z 0). by rewrite <- Zlt_Qlt.
  - rewrite Qmult_0_l. change 0%Q with (inject_Z 0). by rewrite <- Zle_Qle.
Qed.

Lemma stops_per_vehicle_zero (m : t) :
  (0 < _vehicle_count m)%Z → _total_stops m = 0%Z →
  (stops_per_vehicle (get_network_metrics m) == 0)%Q.
Proof.
  intros Hv Hs. unfold get_network_metrics. simpl.
  apply Z.ltb_lt in Hv as ->. rewrite Hs.
  unfold Qdiv. apply Qmult_0_l.
Qed.

(** C8 (amended). Once a vehicle is recorded and stop counts are not
    negative, the coordination quality lies in [[0, 1]], is 1 at zero
    stops, and does not increase with the stops per vehicle among
    accumulators of at most one stop per vehicle and among accumulators
    of more than one stop per vehicle.  (With no vehicle recorded it is
    0, [quality_without_vehicles].) *)
Theorem coordination_quality_shape (m1 m2 : t) :
  (0 < _vehicle_count m1)%Z → (0 < _vehicle_count m2)%Z →
  (0 ≤ _total_stops m1)%Z →
  let s1 := stops_per_vehicle (get_network_metrics m1) in
  let s2 := stops_per_vehicle (get_network_metrics m2) in
  let q1 := coordination_quality (get_network_metrics m1) in
  let q2 := coordination_quality (get_network_metrics m2) in
  (0 <= q1 <= 1)%Q
  ∧ (_total_stops m1 = 0%Z → (q1 == 1)%Q)
  ∧ ((s1 < s2)%Q → (s2 <= 1)%Q ∨ (1 < s1)%Q → (q2 <= q1)%Q).
Proof.
  intros Hv1 Hv2 Hs1 s1 s2 q1 q2. unfold q1, q2.
  rewrite !quality_unfold by done. fold s1 s2.
  split; [|split].
  - apply score_range. by apply stops_per_vehicle_nonneg.
  - intros Hz. apply score_zero. by apply stops_per_vehicle_zero.
  - apply score_mono.
Qed.

Lemma coordination_quality_shape_witness :
  let m1 := update_metrics (init empty_network) 100 0 in
  let m2 := update_metrics (init empty_network) 100 1 in
  (coordination_quality (get_network_metrics m1) == 1)%Q
  ∧ (coordination_quality (get_network_metrics m2)
     <= coordination_quality (get_network_metrics m1))%Q.
Proof.
  intros m1 m2.
  assert (Hv1 : (0 < _vehicle_count m1)%Z) by (by vm_compute).
  assert (Hv2 : (0 < _vehicle_count m2)%Z) by (by vm_compute).
  assert (Hs1 : (0 ≤ _total_stops m1)%Z) by (by vm_compute).
  destruct (coordination_quality_shape m1 m2 Hv1 Hv2 Hs1) as (_ & Hz & Hm).
  split.
  - by apply Hz.
  - apply Hm; [by vm_compute | left; by vm_compute].
Defined.

End QualityFacts.

(** ** Offsets *)

Module OffsetFacts.
Import Coordinator NetworkInputs.

(** [x % c] for a positive [c] lies in [[0, c)]. *)
Lemma fmod_range (x c : Q) :
  (0 < c)%Q → (0 <= PyFloat.fmod x c < c)%Q.
Proof.
  intros Hc. unfold PyFloat.fmod.
  pose proof (Qfloor_le (x / c)) as Hlo.
  pose proof (Qlt_floor (x / c)) as Hhi.
  rewrite inject_Z_plus in Hhi. change (inject_Z 1) with 1%Q in Hhi.
  assert (Hx : (c * (x / c) == x)%Q).
  { apply Qmult_div_r. intros E. rewrite E in Hc. lra. }
  set (f := inject_Z (Qfloor (x / c))) in *.
  set (y := (x / c)%Q) in *. clearbody f y.
  rewrite <- Hx. split; nra.
Qed.

Lemma fmod_proper (x x' c : Q) :
  (x == x')%Q → (PyFloat.fmod x c == PyFloat.fmod x' c)%Q.
Proof.
  intros H. unfold PyFloat.fmod.
  assert (Hf : Qfloor (x / c) = Qfloor (x' / c)).
  { apply Qfloor_comp. by rewrite H. }
  rewrite Hf. lra.
Qed.

(** *** Termination of the breadth-first loop

    Every intersection enters the queue at most once, when it is first
    marked as processed, and only a target of a connection ever does. *)

Lemma size_list_to_set_le (l : list string) :
  size (list_to_set l : gset string) ≤ length l.
Proof.
  induction l as [|x l IH].
  - rewrite list_to_set_nil, size_empty. done.
  - rewrite list_to_set_cons, size_union_alt, size_singleton. simpl.
    assert (size (list_to_set l ∖ {[x]} : gset string)
            ≤ size (list_to_set l : gset string))
      by (apply subseteq_size, subseteq_difference_l; done).
    lia.
Qed.

Lemma size_difference_step (X P : gset string) (x : string) :
  x ∈ X → x ∉ P → size (X ∖ P) = S (size (X ∖ ({[x]} ∪ P))).
Proof.
  intros Hx HP.
  assert (E : X ∖ P = {[x]} ∪ X ∖ ({[x]} ∪ P)).
  { apply set_eq. intros y. rewrite elem_of_union, !elem_of_difference,
      elem_of_union, elem_of_singleton.
    destruct (decide (y = x)) as [->|]; intuition congruence. }
  rewrite E at 1. rewrite size_union, size_singleton; [done|].
  intros y. rewrite elem_of_singleton, elem_of_difference, elem_of_union,
    elem_of_singleton. intros -> [_ H]. apply H. by left.
Qed.

Lemma visit_connections_pending (all : list (string * string))
    (travel_times : gmap (string * string) Q) (current : string)
    (current_offset cycle_time : Q) (conns : list (string * string)) :
  ∀ st st',
    conns ⊆ all →
    visit_connections travel_times current current_offset cycle_time conns st
    = Ok st' →
    pending all st' = pending all st.
Proof.
  induction conns as [|[from_id to_id] rest IH]; intros st st' Hsub H;
    simpl in H.
  - by inversion H.
  - assert (Hrest : rest ⊆ all) by set_solver.
    destruct (decide _) as [[_ Hnew]|_]; [|by apply IH].
    destruct (PyFloat.eqb cycle_time 0); [done|].
    apply IH in H; [|done]. rewrite H. unfold pending. simpl.
    rewrite length_app. simpl.
    assert (Hin : to_id ∈ targets all).
    { unfold targets. rewrite elem_of_list_to_set, list_elem_of_fmap.
      exists (from_id, to_id). split; [done|]. apply Hsub. left. }
    rewrite (size_difference_step (targets all) (processed st) to_id)
      by done.
    lia.
Qed.

Lemma bfs_terminates (m : t) (travel_times : gmap (string * string) Q)
    (fuel : nat) : ∀ st,
  pending (connections (network_config m)) st ≤ fuel →
  is_Some (bfs m travel_times fuel st).
Proof.
  induction fuel as [|fuel IH]; intros st Hfuel.
  - destruct st as [o p [|current rest]]; simpl; [eauto|].
    unfold pending in Hfuel. simpl in Hfuel. lia.
  - destruct st as [o p [|current rest]]; simpl; [eauto|].
    destruct (o !! current); [|eauto].
    destruct (visit_connections _ _ _ _ _ _) as [st'|e] eqn:Hv; [|eauto].
    apply IH.
    apply (visit_connections_pending (connections (network_config m)))
      in Hv; [|done].
    rewrite Hv. unfold pending in *. simpl in *. lia.
Qed.

(** The loop of [calculate_offsets] always comes to an end. *)
Lemma calculate_offsets_terminates (m : t)
    (travel_times : gmap (string * string) Q) :
  is_Some (calculate_offsets m travel_times).
Proof.
  unfold calculate_offsets.
  destruct (decide (travel_times = ∅)); [eauto|].
  destruct (intersections (network_config m)) as [|ref ids]; [eauto|].
  set (st := mkBfs _ _ _).
  destruct (bfs_terminates m travel_times
              (S (length (connections (network_config m)))) st) as [r Hr].
  - unfold pending, st. simpl.
    assert (H1 : size (targets (connections (network_config m)) ∖ {[ref]})
                 ≤ size (targets (connections (network_config m))))
      by (apply subseteq_size, subseteq_difference_l; done).
    assert (H2 : size (targets (connections (network_config m)))
                 ≤ length (connections (network_config m))).
    { unfold targets.
      rewrite <- (length_fmap snd (connections (network_config m))).
      apply size_list_to_set_le. }
    lia.
  - rewrite Hr. destruct r as [st'|e]; eauto.
Qed.

Lemma two_node_offsets_eval (m : t) (A B : string) (T : Q) :
  two_nodes m A B →
  (0 < cycle_time_of m A)%Q →
  let o := <[B := PyFloat.fmod (0 + T) (cycle_time_of m A)]> {[A := 0%Q]} in
  calculate_offsets m {[ (A, B) := T ]} = Some (Ok (o, set_offsets o m)).
Proof.
  intros (Hne & Hint & Hconn) Hc o.
  assert (Hnz : PyFloat.eqb (cycle_time_of m A) 0 = false).
  { destruct (PyFloat.eqb _ 0) eqn:E; [|done].
    apply PyFloatFacts.eqb_eq in E. rewrite E in Hc. lra. }
  unfold calculate_offsets.
  rewrite decide_False by apply map_non_empty_singleton.
  rewrite Hint, Hconn. simpl.
  rewrite lookup_singleton_eq. rewrite Hconn. simpl.
  rewrite decide_True by (split; [done | set_solver]).
  rewrite Hnz, lookup_singleton_eq. simpl.
  rewrite lookup_insert_eq.
  rewrite decide_False by (intros [? _]; done).
  unfold fill_unprocessed. simpl.
  rewrite lookup_insert_ne, lookup_singleton_eq, lookup_insert_eq by done.
  done.
Qed.

(** C9 (amended). For a two-intersection network with the single
    connection A→B and travel time T, where the cycle time used for A is
    positive, [calculate_offsets] returns offset 0 for the reference A and
    [T mod C_A] for B, where [C_A] is the cycle time of the upstream
    intersection A (its controller's [config.max_cycle_time], 60 without
    one); that offset lies in [[0, C_A)]. *)
Theorem two_node_offsets (m : t) (A B : string) (T : Q) :
  two_nodes m A B →
  (0 < cycle_time_of m A)%Q →
  ∃ o m' x,
    calculate_offsets m {[ (A, B) := T ]} = Some (Ok (o, m'))
    ∧ _offsets m' = o
    ∧ o !! A = Some 0%Q
    ∧ o !! B = Some x
    ∧ (x == PyFloat.fmod T (cycle_time_of m A))%Q
    ∧ (0 <= x < cycle_time_of m A)%Q.
Proof.
  intros Htwo Hc. pose proof Htwo as (Hne & _ & _).
  eexists; eexists; eexists.
  split; [by apply two_node_offsets_eval|].
  split; [done|].
  split; [by rewrite lookup_insert_ne, lookup_singleton_eq|].
  split; [by rewrite lookup_insert_eq|].
  split; [apply fmod_proper; ring | by apply fmod_range].
Qed.

Lemma two_node_offsets_witness :
  ∃ o m' x,
    calculate_offsets uneven_network {[ ("A", "B") := 70%Q ]}
    = Some (Ok (o, m'))
    ∧ o !! "B" = Some x ∧ (0 <= x < 180)%Q.
Proof.
  assert (Htwo : two_nodes uneven_network "A" "B") by (by repeat split).
  assert (Hc : (0 < cycle_time_of uneven_network "A")%Q) by (by vm_compute).
  destruct (two_node_offsets uneven_network "A" "B" 70 Htwo Hc)
    as (o & m' & x & Hcalc & _ & _ & HB & _ & Hrange).
  exists o, m', x. split; [exact Hcalc|]. split; [exact HB|].
  exact Hrange.
Defined.

(** C9 (counterexample). In [uneven_network] the offset of B is
    70 mod 180 = 70: it is neither 70 mod 60 = 10, nor below B's own cycle
    time of 60. *)
Lemma offset_wraps_at_upstream_cycle :
  two_nodes uneven_network "A" "B"
  ∧ (cycle_time_of uneven_network "B" == 60)%Q
  ∧ ∃ o m' x,
      calculate_offsets uneven_network {[ ("A", "B") := 70%Q ]}
      = Some (Ok (o, m'))
      ∧ o !! "A" = Some 0%Q
      ∧ o !! "B" = Some x
      ∧ (x == 70)%Q
      ∧ ¬ (x == PyFloat.fmod 70 (cycle_time_of uneven_network "B"))%Q
      ∧ ¬ (x < cycle_time_of uneven_network "B")%Q.
Proof.
  split; [by repeat split|]. split; [by vm_compute|].
  eexists; eexists; eexists.
  split; [vm_compute; reflexivity|].
  split; [by vm_compute|]. split; [by vm_compute|].
  split; [by vm_compute|]. split; by vm_compute.
Qed.

End OffsetFacts.

(** * Further properties *)

(** ** The order of service *)

Section SortedDescOrder.
Context {A : Type} (key : A → Z).

Lemma insert_desc_sorted x l :
  StronglySorted (λ a b, (key b ≤ key a)%Z) l →
  StronglySorted (λ a b, (key b ≤ key a)%Z) (insert_desc key x l).
Proof.
  induction 1 as [|y l Hs IH Hy]; simpl.
  - repeat constructor.
  - destruct (key x <? key y)%Z eqn:E.
    + apply Z.ltb_lt in E. constructor; [done|].
      rewrite insert_desc_perm. constructor; [lia | done].
    + apply Z.ltb_ge in E. constructor; [by constructor|].
      constructor; [done|].
      eapply Forall_impl; [exact Hy|]. simpl. intros z Hz. lia.
Qed.

Lemma insert_desc_filter x l (k : Z) :
  StronglySorted (λ a b, (key b ≤ key a)%Z) l →
  filter (λ a, key a = k) (insert_desc key x l)
  = filter (λ a, key a = k) (x :: l).
Proof.
  induction 1 as [|y l Hs IH Hy]; [done|]. simpl.
  destruct (key x <? key y)%Z eqn:E; [|done].
  apply Z.ltb_lt in E.
  rewrite (filter_cons _ y), IH, !filter_cons.
  destruct (decide (key y = k)), (decide (key x = k)); try done. lia.
Qed.

Lemma sorted_desc_StronglySorted (l : list A) :
  StronglySorted (λ a b, (key b ≤ key a)%Z) (sorted_desc key l).
Proof.
  induction l as [|x l IH]; simpl; [constructor|].
  by apply insert_desc_sorted.
Qed.

(** X1. [sorted(..., reverse=True)] as used for the lane order: the
    result is a rearrangement of the input, in non-increasing key order,
    and entries with the same key keep their input order. *)
Theorem sorted_desc_stable (l : list A) :
  sorted_desc key l ≡ₚ l
  ∧ StronglySorted (λ a b, (key b ≤ key a)%Z) (sorted_desc key l)
  ∧ ∀ k, filter (λ a, key a = k) (sorted_desc key l)
         = filter (λ a, key a = k) l.
Proof.
  split; [apply sorted_desc_perm|].
  split; [apply sorted_desc_StronglySorted|]. intros k.
  induction l as [|x l IH]; [done|]. simpl.
  rewrite insert_desc_filter by apply sorted_desc_StronglySorted.
  by rewrite !filter_cons, IH.
Qed.

Lemma sorted_desc_head_max x rest (l : list A) :
  sorted_desc key l = x :: rest → ∀ y, y ∈ l → (key y ≤ key x)%Z.
Proof.
  intros Hl y Hy.
  pose proof (sorted_desc_perm key l) as Hperm.
  pose proof (sorted_desc_StronglySorted l) as Hsorted.
  rewrite Hl in Hperm, Hsorted. rewrite <- Hperm in Hy.
  apply StronglySorted_inv in Hsorted as [_ Hall].
  apply elem_of_cons in Hy as [->|Hy]; [lia|].
  rewrite Forall_forall in Hall. by apply Hall.
Qed.
End SortedDescOrder.

(** ** The base controller's cycle *)

Module BaseFacts.

(** X2. [allocate_green_time] answers for the same lanes in the same
    order, and with [min_green ≤ max_green] every green time lies in
    [[min_green, max_green]], whatever the ratios are. *)
Theorem allocate_green_time_bounds (c : Controller)
    (density_ratios : list (string * Q)) :
  (min_green (config c) ≤ max_green (config c))%Z →
  (Base.allocate_green_time c density_ratios).*1 = density_ratios.*1
  ∧ Forall (λ p, green_ok (config c) p.2)
      (Base.allocate_green_time c density_ratios).
Proof.
  intros Hrange. unfold Base.allocate_green_time. split.
  - rewrite <- list_fmap_compose. by apply list_fmap_ext.
  - apply Forall_fmap, Forall_true. intros p. unfold green_ok. simpl. lia.
Qed.

Lemma allocate_green_time_bounds_witness :
  Base.allocate_green_time default_controller
    [("north", 3 # 4); ("south", 1 # 4)]%Q
  = [("north", 30%Z); ("south", 10%Z)]
  ∧ Forall (λ p, green_ok default_config p.2)
      (Base.allocate_green_time default_controller
         [("north", 3 # 4); ("south", 1 # 4)]%Q).
Proof.
  split; [reflexivity|].
  apply (allocate_green_time_bounds default_controller). by vm_compute.
Defined.

Lemma _advance_to_next_lane_inv (c : Controller) :
  Forall (λ l, is_Some (_green_times c !! l)) (_lane_queue c) →
  all_red (_states c) →
  ∃ c', Base._advance_to_next_lane c = Ok c' ∧ cycle_inv c'.
Proof.
  intros Hq Hred. unfold Base._advance_to_next_lane.
  destruct (_lane_queue c) as [|next rest] eqn:Hqueue.
  - eexists. split; [done|]. split; simpl; [by rewrite Hqueue | done].
  - inversion Hq as [|? ? [g Hg] Hrest]; subst. simpl. rewrite Hg.
    eexists. split; [done|]. split; simpl; [done|].
    rewrite !lookup_insert_eq. repeat split; eauto.
    by apply others_red_insert, all_red_others_red.
Qed.

Lemma update_state_inv (c : Controller) (elapsed : Q) :
  cycle_inv c →
  ∃ c', Base.update_state elapsed c = Ok c' ∧ cycle_inv c'.
Proof.
  intros [Hq Hact]. unfold Base.update_state.
  destruct (_active_lane c) as [a|] eqn:Ha; [|by exists c; repeat split; rewrite ?Ha].
  destruct Hact as ([s Hs] & [r Hr] & Hothers). rewrite Hr.
  destruct (PyFloat.leb _ 0); simpl.
  - rewrite Hs. destruct s.
    + eexists. split; [done|]. split; simpl; [done|]. rewrite Ha.
      rewrite lookup_insert_eq. eauto.
    + apply _advance_to_next_lane_inv; simpl; [done|].
      by apply all_red_insert_red.
    + eexists. split; [done|]. split; simpl; [done|]. rewrite Ha.
      rewrite !lookup_insert_eq. repeat split; eauto.
      by apply others_red_insert.
  - eexists. split; [done|]. split; simpl; [done|]. rewrite Ha.
    rewrite lookup_insert_eq. eauto.
Qed.

Lemma updates_inv (elapsed_times : list Q) : ∀ c,
  cycle_inv c →
  ∃ c', Base.updates c elapsed_times = Ok c' ∧ cycle_inv c'.
Proof.
  induction elapsed_times as [|e rest IH]; intros c Hinv; [by exists c|].
  destruct (update_state_inv c e Hinv) as (c1 & Hstep & Hinv1).
  destruct (IH c1 Hinv1) as (c2 & Hrun & Hinv2).
  exists c2. simpl. rewrite Hstep. simpl. by rewrite Hrun.
Qed.

Lemma cycle_inv_mutual_exclusion (c : Controller) :
  cycle_inv c → mutual_exclusion (_states c).
Proof.
  intros [_ Hact]. destruct (_active_lane c) as [a|].
  - destruct Hact as (_ & _ & Hothers).
    apply (cursor_ok_mutual_exclusion _
             [mkPhase THROUGH [a] 0 YELLOW]).
    apply at_yellow; [constructor | done].
  - apply (cursor_ok_mutual_exclusion _ []). by constructor.
Qed.

Lemma list_to_map_is_Some {V} (l : list (string * V)) (k : string) :
  k ∈ l.*1 → is_Some ((list_to_map l : gmap string V) !! k).
Proof.
  intros Hk. destruct (list_to_map l !! k) eqn:E; [eauto|].
  by apply not_elem_of_list_to_map in E.
Qed.

Lemma start_cycle_inv (c : Controller) (green_times : list (string * Z)) :
  ∃ c', Base.start_cycle green_times c = Ok c' ∧ cycle_inv c'.
Proof.
  unfold Base.start_cycle. apply _advance_to_next_lane_inv; simpl.
  - apply Forall_forall. intros l Hl. apply list_to_map_is_Some.
    apply list_elem_of_fmap in Hl as (p & -> & Hp).
    apply sorted_desc_elem_of in Hp. by apply list_elem_of_fmap_2.
  - intros l s Hs. apply elem_of_list_to_map_2 in Hs.
    apply list_elem_of_fmap in Hs as (p & [= -> ->] & _). done.
Qed.

(** X3. A cycle of the base controller never raises and keeps mutual
    exclusion: after [start_cycle] for any allocation and any sequence of
    [update_state] calls, at most one lane is GREEN or YELLOW. *)
Theorem base_cycle_mutual_exclusion (c : Controller)
    (green_times : list (string * Z)) (elapsed_times : list Q) :
  ∃ c0 c',
    Base.start_cycle green_times c = Ok c0
    ∧ Base.updates c0 elapsed_times = Ok c'
    ∧ mutual_exclusion (Base.get_current_states c').
Proof.
  destruct (start_cycle_inv c green_times) as (c0 & Hstart & Hinv0).
  destruct (updates_inv elapsed_times c0 Hinv0) as (c' & Hrun & Hinv).
  exists c0, c'. split; [done|]. split; [done|].
  by apply cycle_inv_mutual_exclusion.
Qed.

End BaseFacts.

Module StartCycleFacts.

(** X4. [start_cycle] for a non-empty allocation (a dict: no lane twice)
    turns GREEN a lane whose green time is the largest, with that green
    time as its remaining time, makes it the active lane and leaves every
    other lane of the allocation RED. *)
Theorem start_cycle_first_lane (c : Controller)
    (green_times : list (string * Z)) :
  NoDup green_times.*1 → green_times ≠ [] →
  ∃ c' lane g,
    Base.start_cycle green_times c = Ok c'
    ∧ (lane, g) ∈ green_times
    ∧ (∀ p, p ∈ green_times → (p.2 ≤ g)%Z)
    ∧ _active_lane c' = Some lane
    ∧ Base.get_current_states c' !! lane = Some GREEN
    ∧ Base.get_remaining_times c' !! lane = Some (inject_Z g)
    ∧ ∀ l, l ∈ green_times.*1 → l ≠ lane →
           Base.get_current_states c' !! l = Some RED.
Proof.
  intros Hnodup Hne.
  destruct (sorted_desc snd green_times) as [|[lane g] rest] eqn:Hsorted.
  { pose proof (sorted_desc_perm snd green_times) as Hperm.
    rewrite Hsorted in Hperm. apply Permutation_nil_l in Hperm. done. }
  assert (Hin : (lane, g) ∈ green_times).
  { apply (sorted_desc_elem_of snd). rewrite Hsorted. left. }
  assert (Hg : (list_to_map green_times : gmap string Z) !! lane = Some g)
    by (by apply elem_of_list_to_map_1).
  unfold Base.start_cycle, Base._advance_to_next_lane. simpl.
  rewrite Hsorted. simpl. rewrite Hg.
  eexists _, lane, g. split; [done|]. split; [done|].
  split; [intros p Hp; by apply (sorted_desc_head_max snd _ _ _ Hsorted p)|].
  split; [done|]. unfold Base.get_current_states, Base.get_remaining_times.
  simpl. rewrite !lookup_insert_eq. split; [done|]. split; [done|].
  intros l Hl Hneq. rewrite lookup_insert_ne by done.
  apply list_elem_of_fmap in Hl as ([l' g'] & -> & Hl).
  apply elem_of_list_to_map_1.
  - rewrite <- list_fmap_compose. exact Hnodup.
  - apply list_elem_of_fmap. by exists (l', g').
Qed.

Lemma start_cycle_first_lane_witness :
  ∃ c', Base.start_cycle [("north", 15%Z); ("south", 20%Z); ("east", 20%Z)]
          default_controller = Ok c'
        ∧ _active_lane c' = Some "south".
Proof.
  assert (Hnodup : NoDup [("north", 15%Z); ("south", 20%Z); ("east", 20%Z)].*1).
  { apply (bool_decide_unpack _). by vm_compute. }
  destruct (start_cycle_first_lane default_controller
              [("north", 15%Z); ("south", 20%Z); ("east", 20%Z)] Hnodup
              ltac:(done))
    as (c' & lane & g & Hstart & _ & _ & Hact & _).
  exists c'. split; [exact Hstart|].
  vm_compute in Hstart. injection Hstart as <-. reflexivity.
Defined.

End StartCycleFacts.

(** ** What [allocate_time] and [update_state] leave alone *)

Section UpdateStateFrame.
Context {X : Type} (f : Controller → X).
Hypothesis f_states : ∀ v c, f (set_states v c) = f c.
Hypothesis f_remaining : ∀ v c, f (set_remaining_times v c) = f c.
Hypothesis f_active : ∀ v c, f (set_active_lane v c) = f c.
Hypothesis f_queue : ∀ v c, f (set_lane_queue v c) = f c.
Hypothesis f_last_green : ∀ v c, f (set_last_green_times v c) = f c.
Hypothesis f_emergency : ∀ a l t c, f (set_emergency a l t c) = f c.
Hypothesis f_override : ∀ a l t c, f (set_manual_override a l t c) = f c.
Hypothesis f_plan : ∀ p i t c, f (set_plan p i t c) = f c.

Lemma _advance_to_next_lane_frame (c c' : Controller) :
  Base._advance_to_next_lane c = Ok c' → f c' = f c.
Proof.
  unfold Base._advance_to_next_lane. intros H.
  repeat case_match; simplify_eq;
    by rewrite ?f_active, ?f_remaining, ?f_states, ?f_queue.
Qed.

Lemma base_update_state_frame (c c' : Controller) (elapsed : Q) :
  Base.update_state elapsed c = Ok c' → f c' = f c.
Proof.
  unfold Base.update_state. intros H.
  repeat case_match; simplify_eq;
    try (by rewrite ?f_active, ?f_remaining, ?f_states, ?f_queue).
  apply _advance_to_next_lane_frame in H.
  by rewrite H, ?f_remaining, ?f_states.
Qed.

Lemma foldl_complete_lane_frame (st : SignalState) (now : Q)
    (names : list string) : ∀ acc,
  f (foldl (complete_lane st now) acc names).1 = f acc.1.
Proof.
  induction names as [|l names IH]; intros [c ts]; [done|].
  cbn [foldl]. rewrite IH. unfold complete_lane.
  repeat case_match; cbn [fst]; by rewrite ?f_last_green, ?f_states.
Qed.

Lemma foldl_start_lane_frame (st : SignalState) (now : Q)
    (names : list string) : ∀ acc,
  f (foldl (start_lane st now) acc names).1 = f acc.1.
Proof.
  induction names as [|l names IH]; intros [c ts]; [done|].
  cbn [foldl]. rewrite IH. unfold start_lane.
  repeat case_match; cbn [fst]; by rewrite ?f_states.
Qed.

Lemma advance_plan_frame (c : Controller) (plan : SignalPlan)
    (ph : SignalPhase) (now : Q) :
  f (advance_plan c plan ph now).1 = f c.
Proof.
  unfold advance_plan. destruct (PyFloat.leb _ _); [|done].
  pose proof (foldl_complete_lane_frame (state ph) now (lanes ph) (c, []))
    as Hc.
  destruct (foldl (complete_lane _ _) _ _) as [c1 ts1]. cbn [fst] in Hc.
  cbv zeta. destruct (phases plan !! _) as [next|]; cbn [fst].
  - rewrite foldl_start_lane_frame. cbn [fst]. by rewrite f_plan.
  - by rewrite f_plan.
Qed.

Lemma update_state_frame (c c' : Controller) (elapsed now : Q)
    (ts : list StateTransition) :
  update_state c elapsed now = Ok (ts, c') → f c' = f c.
Proof.
  unfold update_state. intros H.
  destruct (check_manual_override c now) as [[c1|]|] eqn:Hov; simpl in H;
    [|by simplify_eq|done].
  assert (H1 : f c1 = f c).
  { unfold check_manual_override in Hov.
    repeat case_match; simplify_eq; by rewrite ?f_override. }
  destruct (check_emergency c1 now) as [c2|] eqn:Hem;
    [|by injection H as _ <-].
  assert (H2 : f c2 = f c1).
  { unfold check_emergency in Hem.
    repeat case_match; simplify_eq; by rewrite ?f_emergency. }
  assert (Hbase : ∀ c3, Base.update_state elapsed c2 = Ok c3 → f c3 = f c).
  { intros c3 Hb. apply base_update_state_frame in Hb. congruence. }
  destruct (_current_plan c2) as [plan|].
  - destruct (phases plan !! _current_phase_index c2) as [ph|].
    + pose proof (advance_plan_frame c2 plan ph now) as Hadv.
      destruct (advance_plan c2 plan ph now) as [c3 ts3].
      injection H as _ <-. cbn [fst] in Hadv. congruence.
    + destruct (Base.update_state elapsed c2) as [c3|] eqn:Hb; [|done].
      simpl in H. injection H as _ <-. by apply Hbase.
  - destruct (Base.update_state elapsed c2) as [c3|] eqn:Hb; [|done].
    simpl in H. injection H as _ <-. by apply Hbase.
Qed.
End UpdateStateFrame.

Lemma allocate_time_history (c c' : Controller) (lane_data : lane_data_map)
    (t1 t2 : Q) (plan : SignalPlan) :
  allocate_time c lane_data t1 t2 = Ok (plan, c') →
  get_transition_history c' = get_transition_history c.
Proof.
  unfold allocate_time. intros H.
  pose proof (allocate_normal_state c c' lane_data t1 t2 plan) as Hn.
  repeat case_match; try (by rewrite (Hn H)).
  unfold _create_emergency_plan in H. by injection H as <- <-.
Qed.

(** X5. [allocate_time] installs the returned plan at phase 0 and changes
    no lane state: the lane of the first phase is not set GREEN by the
    allocation.  The transition history, the recorded green times and
    the emergency and override flags are left alone as well. *)
Theorem allocate_time_frame (c c' : Controller) (lane_data : lane_data_map)
    (t1 t2 : Q) (plan : SignalPlan) :
  allocate_time c lane_data t1 t2 = Ok (plan, c') →
  get_current_plan c' = Some plan
  ∧ _current_phase_index c' = 0
  ∧ get_current_states c' = get_current_states c
  ∧ get_transition_history c' = get_transition_history c
  ∧ _last_green_times c' = _last_green_times c
  ∧ is_emergency_active c' = is_emergency_active c
  ∧ _manual_override_active c' = _manual_override_active c.
Proof.
  unfold allocate_time. intros H.
  assert (Hn : allocate_normal c lane_data t1 t2 = Ok (plan, c') →
               c' = set_plan (Some plan) 0 t2
                      (set_pending_turn_phases []
                         (set_pending_pedestrian_phases [] c)))
    by apply allocate_normal_state.
  repeat case_match; try (rewrite (Hn H); by repeat split).
  unfold _create_emergency_plan in H. injection H as <- <-.
  by repeat split.
Qed.

Lemma allocate_time_frame_witness :
  ∃ plan c',
    allocate_time (configured default_config ["north"; "south"])
      north_south 0 0 = Ok (plan, c')
    ∧ get_current_states c' !! "north" = Some RED.
Proof.
  destruct (allocate_time (configured default_config ["north"; "south"])
              north_south 0 0) as [[plan c']|e] eqn:E; [|by vm_compute in E].
  exists plan, c'. split; [reflexivity|].
  destruct (allocate_time_frame _ _ _ _ _ _ E) as (_ & _ & -> & _).
  reflexivity.
Defined.

(** X6. Plan-driven transitions are returned, never stored: over any
    sequence of [allocate_time] and [update_state] calls the transition
    history stays as it was. *)
Theorem run_keeps_history (calls : list (call * (Q * Q))) :
  ∀ (c c' : Controller) (outs : list output),
    run c calls = Ok (outs, c') →
    get_transition_history c' = get_transition_history c.
Proof.
  induction calls as [|[k clock] rest IH]; intros c c' outs H; simpl in H.
  - by injection H as _ <-.
  - destruct (step c k clock) as [[o c1]|] eqn:Hstep; [|done]. simpl in H.
    destruct (run c1 rest) as [[outs' c2]|] eqn:Hrun; [|done]. simpl in H.
    injection H as _ <-. rewrite (IH _ _ _ Hrun).
    unfold step in Hstep. destruct k as [lane_data|elapsed].
    + destruct (allocate_time _ _ _ _) as [[plan c3]|] eqn:Ha; [|done].
      simpl in Hstep. injection Hstep as _ <-.
      by apply allocate_time_history in Ha.
    + destruct (update_state _ _ _) as [[ts c3]|] eqn:Hu; [|done].
      simpl in Hstep. injection Hstep as _ <-.
      by apply (update_state_frame _transition_history) in Hu.
Qed.

Lemma run_keeps_history_witness :
  ∃ outs c',
    run (configured default_config ["north"; "south"]) reallocation_trace
    = Ok (outs, c')
    ∧ get_transition_history c' = [].
Proof.
  destruct (run (configured default_config ["north"; "south"])
              reallocation_trace) as [[outs c']|e] eqn:E;
    [|by vm_compute in E].
  exists outs, c'. split; [reflexivity|].
  by rewrite (run_keeps_history _ _ _ _ E).
Defined.

(** ** Manual override *)

Lemma update_state_overridden (c : Controller) (end_time elapsed now : Q) :
  _manual_override_active c = true →
  _manual_override_end_time c = Some end_time →
  (now < end_time)%Q →
  update_state c elapsed now = Ok ([], c).
Proof.
  intros Hact Hend Hlt. unfold update_state, check_manual_override.
  rewrite Hact, Hend. by apply PyFloatFacts.leb_gt in Hlt as ->.
Qed.

(** X7. [override_signal] on a configured lane sets that lane's state and
    freezes the whole controller: every [update_state] met before
    [t1 + duration] returns no transition and changes nothing, whatever
    plan is installed. *)
Theorem override_freezes (c : Controller) (lane : string) (st : SignalState)
    (duration t1 t2 : Q) (l : list (Q * Q)) :
  is_Some (_states c !! lane) →
  Forall (λ p, (p.2 < t1 + duration)%Q) l →
  ∃ c1, override_signal c lane st duration t1 t2 = Ok c1
        ∧ get_current_states c1 = <[lane := st]> (_states c)
        ∧ run c1 (ticks l) = Ok (replicate (length l) (Transitions []), c1).
Proof.
  intros [old Hold] Hall. unfold override_signal. rewrite Hold.
  eexists. split; [done|]. split; [done|].
  set (c1 := set_transition_history _ _).
  induction l as [|[elapsed now] l IH]; [done|].
  inversion Hall as [|? ? Hnow Hrest]; subst. simpl.
  rewrite (update_state_overridden c1 (t1 + duration)) by done.
  simpl. by rewrite (IH Hrest).
Qed.

Lemma override_freezes_witness :
  ∃ c1, override_signal allocated "north" GREEN 10 100 100 = Ok c1
        ∧ run c1 (ticks [(1, 101); (50, 109)]%Q)
          = Ok ([Transitions []; Transitions []], c1).
Proof.
  assert (H : is_Some (_states allocated !! "north"))
    by (exists RED; by vm_compute).
  assert (Hall : Forall (λ p : Q * Q, (p.2 < 100 + 10)%Q)
                   [(1, 101); (50, 109)]%Q) by (by repeat constructor).
  destruct (override_freezes allocated "north" GREEN 10 100 100 _ H Hall)
    as (c1 & Ho & _ & Hrun).
  exists c1. split; [exact Ho | exact Hrun].
Defined.

Lemma update_state_override_off (c c' : Controller) (elapsed now : Q)
    (ts : list StateTransition) :
  _manual_override_active c = false →
  update_state c elapsed now = Ok (ts, c') →
  override_fields c' = override_fields c.
Proof.
  intros Hoff. unfold update_state, check_manual_override. rewrite Hoff.
  simpl. intros H.
  destruct (check_emergency c now) as [c2|] eqn:Hem;
    [|by injection H as _ <-].
  apply check_emergency_fields in Hem.
  destruct (_current_plan c2) as [plan|].
  - destruct (phases plan !! _current_phase_index c2) as [ph|].
    + pose proof (advance_plan_fields c2 plan ph now) as Hadv.
      destruct (advance_plan c2 plan ph now) as [c3 ts3].
      injection H as _ <-. simpl in Hadv. congruence.
    + destruct (Base.update_state elapsed c2) as [c3|] eqn:Hb; [|done].
      simpl in H. injection H as _ <-.
      apply base_update_state_fields in Hb. congruence.
  - destruct (Base.update_state elapsed c2) as [c3|] eqn:Hb; [|done].
    simpl in H. injection H as _ <-.
    apply base_update_state_fields in Hb. congruence.
Qed.

(** X8. Once the clock has reached the override's end time, the next
    [update_state] clears the override and carries on exactly as if the
    override had been cleared before the call; the flag is off in the
    state it returns. *)
Theorem override_expires (c : Controller) (end_time elapsed now : Q) :
  _manual_override_active c = true →
  _manual_override_end_time c = Some end_time →
  (end_time <= now)%Q →
  update_state c elapsed now
  = update_state (set_manual_override false None (Some end_time) c)
      elapsed now
  ∧ ∀ ts c', update_state c elapsed now = Ok (ts, c') →
             _manual_override_active c' = false.
Proof.
  intros Hact Hend Hle.
  assert (Heq : update_state c elapsed now
                = update_state (set_manual_override false None
                                  (Some end_time) c) elapsed now).
  { unfold update_state, check_manual_override at 1.
    rewrite Hact, Hend. apply PyFloatFacts.leb_le in Hle as ->. done. }
  split; [done|]. intros ts c' H. rewrite Heq in H.
  apply update_state_override_off in H; [|done].
  by injection H as -> _.
Qed.

Lemma override_expires_witness :
  ∃ c1 ts c',
    override_signal allocated "south" GREEN 10 0 0 = Ok c1
    ∧ update_state c1 1 45 = Ok (ts, c')
    ∧ _manual_override_active c' = false
    ∧ get_current_states c' !! "north" = Some YELLOW.
Proof.
  destruct (override_signal allocated "south" GREEN 10 0 0) as [c1|e] eqn:Ho;
    [|by vm_compute in Ho].
  destruct (update_state c1 1 45) as [[ts c']|e] eqn:Hu;
    [|vm_compute in Ho; injection Ho as <-; by vm_compute in Hu].
  exists c1, ts, c'. split; [reflexivity|]. split; [exact Hu|].
  assert (Hact : _manual_override_active c1 = true)
    by (vm_compute in Ho; by injection Ho as <-).
  assert (Hend : _manual_override_end_time c1 = Some (0 + 10)%Q)
    by (vm_compute in Ho; by injection Ho as <-).
  split.
  - by apply (proj2 (override_expires c1 (0 + 10) 1 45 Hact Hend
                       ltac:(by vm_compute)) ts c' Hu).
  - vm_compute in Ho. injection Ho as <-. vm_compute in Hu.
    by injection Hu as _ <-.
Defined.

(** ** The end of an emergency hold *)




(** ** What a plan contains *)








(** ** More demand, no less green *)

Lemma trunc_mono (x y : Q) :
  (x <= y)%Q → (PyFloat.trunc x ≤ PyFloat.trunc y)%Z.
Proof.
  intros Hxy. unfold PyFloat.trunc.
  destruct (PyFloat.ltb x 0) eqn:Ex, (PyFloat.ltb y 0) eqn:Ey.
  - by apply Qceiling_resp_le.
  - apply PyFloatFacts.ltb_lt in Ex. apply PyFloatFacts.ltb_ge in Ey.
    trans 0%Z.
    + change 0%Z with (Qceiling 0). apply Qceiling_resp_le. lra.
    + change 0%Z with (Qfloor 0). by apply Qfloor_resp_le.
  - apply PyFloatFacts.ltb_ge in Ex. apply PyFloatFacts.ltb_lt in Ey. lra.
  - by apply Qfloor_resp_le.
Qed.

Lemma allocate_lane_mono (cfg : SignalConfig) (total p1 p2 : Q)
    (data : LaneData) :
  (0 < total)%Q → (p1 <= p2)%Q →
  (allocate_lane cfg total p1 data ≤ allocate_lane cfg total p2 data)%Z.
Proof.
  intros Htotal Hp. unfold allocate_lane.
  assert (Hshare : (PyFloat.trunc (60 * (p1 / total))
                    ≤ PyFloat.trunc (60 * (p2 / total)))%Z).
  { apply trunc_mono. apply Qmult_le_l; [done|].
    apply Qmult_le_compat_r; [done|].
    apply Qinv_le_0_compat. by apply Qlt_le_weak. }
  destruct (PyFloat.ltb 50 _); lia.
Qed.

Lemma allocate_lane_queue (cfg : SignalConfig) (total p : Q)
    (d1 d2 : LaneData) :
  queue_length d1 = queue_length d2 →
  allocate_lane cfg total p d1 = allocate_lane cfg total p d2.
Proof. intros H. unfold allocate_lane. by rewrite H. Qed.

Lemma max_zero_mono (x y : Q) :
  (x <= y)%Q → (PyFloat.max 0 x <= PyFloat.max 0 y)%Q.
Proof.
  intros H. unfold PyFloat.max.
  destruct (PyFloat.ltb 0 x) eqn:Ex, (PyFloat.ltb 0 y) eqn:Ey;
    try apply PyFloatFacts.ltb_lt in Ex; try apply PyFloatFacts.ltb_ge in Ex;
    try apply PyFloatFacts.ltb_lt in Ey; try apply PyFloatFacts.ltb_ge in Ey;
    lra.
Qed.

Lemma lane_priority_count_mono (c : Controller) (now : Q) (A B : string)
    (dA dB : LaneData) :
  (vehicle_count dB ≤ vehicle_count dA)%Z →
  queue_length dA = queue_length dB → wait_time dA = wait_time dB →
  vehicle_types dA = vehicle_types dB →
  _last_green_times c !! A = _last_green_times c !! B →
  (lane_priority c now B dB <= lane_priority c now A dA)%Q.
Proof.
  intros Hcount Hq Hw Ht Hlg. unfold lane_priority.
  apply max_zero_mono.
  assert (Hb : fairness_boost (config c) (_last_green_times c) now B
               = fairness_boost (config c) (_last_green_times c) now A)
    by (unfold fairness_boost; by rewrite Hlg).
  rewrite Hb. unfold base_priority. rewrite Hq, Hw, Ht.
  rewrite Zle_Qle in Hcount. lra.
Qed.

Lemma Qsum_from (l : list Q) (a : Q) :
  Forall (λ x, (0 <= x)%Q) l → (a <= foldl Qplus a l)%Q.
Proof.
  intros H. revert a. induction H as [|x l Hx _ IH]; intros a; simpl.
  - apply Qle_refl.
  - eapply Qle_trans; [|apply IH]. lra.
Qed.

Lemma total_priority_nonneg (c : Controller) (now : Q)
    (lane_data : lane_data_map) :
  (0 <= Qsum (_calculate_priorities c now lane_data).*2)%Q.
Proof.
  apply Qsum_from. unfold _calculate_priorities.
  rewrite <- list_fmap_compose. apply Forall_fmap, Forall_true.
  intros p. simpl. apply PyFloatFacts.max_lub_l.
Qed.

Lemma assoc_get_elem {V} (l : list (string * V)) (k : string) (v : V) :
  NoDup l.*1 → (k, v) ∈ l → assoc_get k l = Some v.
Proof.
  induction l as [|[k' v'] l IH]; intros Hnd Hin; [by inversion Hin|].
  apply NoDup_cons in Hnd as [Hk' Hnd]. simpl.
  apply elem_of_cons in Hin as [[= -> ->]|Hin].
  - by rewrite decide_True.
  - rewrite decide_False; [by apply IH|].
    intros ->. apply Hk'. apply list_elem_of_fmap. by exists (k, v).
Qed.

Lemma allocate_lanes_elem (cfg : SignalConfig) (total : Q)
    (lane_data : lane_data_map) (priorities : list (string * Q)) :
  ∀ green_times lane p,
    allocate_lanes cfg total lane_data priorities = Ok green_times →
    (lane, p) ∈ priorities →
    ∃ data, assoc_get lane lane_data = Some data
            ∧ (lane, allocate_lane cfg total p data) ∈ green_times.
Proof.
  induction priorities as [|[l q] rest IH]; intros gts lane p H Hin;
    [by inversion Hin|].
  simpl in H.
  destruct (assoc_get l lane_data) as [d|] eqn:Hd; [|done].
  destruct (allocate_lanes cfg total lane_data rest) as [gts'|] eqn:Hr;
    [|done].
  simpl in H. injection H as <-.
  apply elem_of_cons in Hin as [[= -> ->]|Hin].
  - exists d. split; [done | left].
  - destruct (IH gts' lane p eq_refl Hin) as (d' & Hd' & Hin').
    exists d'. split; [done | by right].
Qed.

(** X11. Within one allocation (a dict: no lane twice), a lane that has at
    least as many vehicles as another, with the same queue length, wait
    time, vehicle types and last-green record, is allocated at least as
    much green time. *)
Theorem green_time_monotone (c : Controller) (now : Q)
    (lane_data : lane_data_map) (green_times : list (string * Z))
    (A B : string) (dA dB : LaneData) :
  NoDup lane_data.*1 →
  (A, dA) ∈ lane_data → (B, dB) ∈ lane_data →
  (vehicle_count dB ≤ vehicle_count dA)%Z →
  queue_length dA = queue_length dB → wait_time dA = wait_time dB →
  vehicle_types dA = vehicle_types dB →
  _last_green_times c !! A = _last_green_times c !! B →
  _allocate_green_times c (_calculate_priorities c now lane_data) lane_data
  = Ok green_times →
  ∃ gA gB, (A, gA) ∈ green_times ∧ (B, gB) ∈ green_times ∧ (gB ≤ gA)%Z.
Proof.
  intros Hnd HA HB Hcount Hq Hw Ht Hlg.
  pose proof (lane_priority_count_mono c now A B dA dB Hcount Hq Hw Ht Hlg)
    as Hprio.
  assert (HpA : (A, lane_priority c now A dA)
                ∈ _calculate_priorities c now lane_data).
  { apply list_elem_of_fmap. by exists (A, dA). }
  assert (HpB : (B, lane_priority c now B dB)
                ∈ _calculate_priorities c now lane_data).
  { apply list_elem_of_fmap. by exists (B, dB). }
  unfold _allocate_green_times.
  pose proof (total_priority_nonneg c now lane_data) as Hnonneg.
  destruct (PyFloat.eqb _ 0) eqn:Ezero.
  - intros [= <-]. exists (min_green (config c)), (min_green (config c)).
    split; [|split; [|lia]].
    + apply list_elem_of_fmap. by eexists (A, _).
    + apply list_elem_of_fmap. by eexists (B, _).
  - intros H.
    assert (Hpos : (0 < Qsum (_calculate_priorities c now lane_data).*2)%Q).
    { apply Qle_lt_or_eq in Hnonneg as [?|Heq]; [done|].
      symmetry in Heq. apply PyFloatFacts.eqb_eq in Heq. congruence. }
    destruct (allocate_lanes_elem _ _ _ _ _ _ _ H HpA) as (dA' & HdA & HgA).
    destruct (allocate_lanes_elem _ _ _ _ _ _ _ H HpB) as (dB' & HdB & HgB).
    rewrite (assoc_get_elem _ _ _ Hnd HA) in HdA. injection HdA as <-.
    rewrite (assoc_get_elem _ _ _ Hnd HB) in HdB. injection HdB as <-.
    eexists _, _. split; [exact HgA|]. split; [exact HgB|].
    rewrite (allocate_lane_queue _ _ _ dB dA) by done.
    by apply allocate_lane_mono.
Qed.

Lemma green_time_monotone_witness :
  ∃ gA gB,
    ("north", gA) ∈ [("north", 45%Z); ("south", 15%Z)]
    ∧ ("south", gB) ∈ [("north", 45%Z); ("south", 15%Z)]
    ∧ (gB ≤ gA)%Z.
Proof.
  set (c := configured default_config ["north"; "south"]).
  assert (Hnd : NoDup north_south.*1)
    by (apply (bool_decide_unpack _); by vm_compute).
  assert (HA : ("north", demand 3) ∈ north_south) by left.
  assert (HB : ("south", demand 1) ∈ north_south) by (right; left).
  assert (Hc : (vehicle_count (demand 1) ≤ vehicle_count (demand 3))%Z)
    by (by vm_compute).
  assert (Hgts : _allocate_green_times c
                   (_calculate_priorities c 0 north_south) north_south
                 = Ok [("north", 45%Z); ("south", 15%Z)])
    by (by vm_compute).
  exact (green_time_monotone c 0 north_south _ "north" "south"
           (demand 3) (demand 1) Hnd HA HB Hc eq_refl eq_refl eq_refl
           eq_refl Hgts).
Defined.

(** ** Offsets of any network *)

Lemma rescaled_shape (cfg : SignalConfig) raw plan (ph : SignalPhase) :
  rescaled cfg raw plan → ph ∈ raw →
  ∃ ph', ph' ∈ phases plan ∧ phase_type ph' = phase_type ph
         ∧ lanes ph' = lanes ph ∧ state ph' = state ph.
Proof.
  intros [?|?|?] Hin; simpl; [by exists ph| |];
    (eexists; split;
     [unfold scale_phases; apply list_elem_of_fmap; eexists;
      split; [reflexivity | exact Hin]
     | done]).
Qed.

Lemma rescaled_types (cfg : SignalConfig) raw plan (ty : PhaseType) :
  rescaled cfg raw plan →
  Forall (λ ph, phase_type ph = ty) raw →
  Forall (λ ph, phase_type ph = ty) (phases plan).
Proof.
  intros [?|?|?] Hall; simpl; [done| |];
    unfold scale_phases; apply Forall_fmap;
    (eapply Forall_impl; [exact Hall | done]).
Qed.

Lemma through_phases_type (cfg : SignalConfig) (l : list (string * Z)) :
  Forall (λ ph, phase_type ph = THROUGH) (through_phases cfg l).
Proof.
  induction l as [|p l IH]; simpl; [constructor|].
  destruct (p.2 <=? 0)%Z; simpl; [done|]. by repeat constructor.
Qed.

(** X12. Requests queued with [add_pedestrian_phase] and [add_turn_phase]
    are served by the next non-emergency allocation and by that one only:
    its plan has a GREEN pedestrian phase for the crosswalk and a GREEN and
    a YELLOW phase of the requested type for the turn lane, and the plan of
    the allocation after it has through phases alone. *)
Theorem requests_served_once (c c1 c2 : Controller)
    (crosswalk : string) (pedestrians : Z)
    (turn_lane : string) (turn_type : PhaseType) (turning : Z)
    (lane_data lane_data' : lane_data_map) (t1 t2 t3 t4 : Q)
    (plan1 plan2 : SignalPlan) :
  existsb (λ p, has_emergency p.2) lane_data = false →
  existsb (λ p, has_emergency p.2) lane_data' = false →
  allocate_time
    (add_turn_phase (add_pedestrian_phase c crosswalk pedestrians)
       turn_lane turn_type turning)
    lane_data t1 t2 = Ok (plan1, c1) →
  allocate_time c1 lane_data' t3 t4 = Ok (plan2, c2) →
  (∃ ph, ph ∈ phases plan1 ∧ phase_type ph = PEDESTRIAN
         ∧ lanes ph = [crosswalk] ∧ state ph = GREEN)
  ∧ (∀ st, st = GREEN ∨ st = YELLOW →
       ∃ ph, ph ∈ phases plan1 ∧ phase_type ph = turn_type
             ∧ lanes ph = [turn_lane] ∧ state ph = st)
  ∧ Forall (λ ph, phase_type ph = THROUGH) (phases plan2).
Proof.
  intros He1 He2 H1 H2. unfold allocate_time in H1, H2.
  cbv zeta in H1, H2. rewrite He1 in H1. rewrite He2 in H2.
  set (c0 := add_turn_phase _ _ _ _) in H1.
  destruct (allocate_normal_rescaled _ _ _ _ _ _ H1) as (gts & _ & Hr1).
  pose proof (allocate_normal_state _ _ _ _ _ _ H1) as ->.
  destruct (allocate_normal_rescaled _ _ _ _ _ _ H2) as (gts2 & _ & Hr2).
  assert (Hped : (crosswalk, pedestrians) ∈ _pending_pedestrian_phases c0).
  { apply elem_of_app. right. left. }
  assert (Hturn : In (turn_lane, turn_type, turning)
                     (_pending_turn_phases c0)).
  { apply in_or_app. right. by left. }
  unfold _create_phases in Hr1, Hr2. cbn [fst] in Hr1, Hr2.
  split; [|split].
  - destruct (rescaled_shape _ _ _
                (mkPhase PEDESTRIAN [crosswalk]
                   (7 + (inject_Z pedestrians - 1) * 1)%Q GREEN) Hr1)
      as (ph & Hph); [|by exists ph].
    apply elem_of_app. right. apply elem_of_app. left.
    unfold pedestrian_phases. apply list_elem_of_fmap.
    by exists (crosswalk, pedestrians).
  - intros st Hst.
    destruct (rescaled_shape _ _ _
                (mkPhase turn_type [turn_lane]
                   (if decide (st = GREEN)
                    then inject_Z (Z.max 10 (Z.min 30 (turning * 3)))
                    else inject_Z (yellow_duration (config c0))) st) Hr1)
      as (ph & Hph); [|by exists ph].
    apply elem_of_app. right. apply elem_of_app. right.
    apply list_elem_of_In. unfold turn_phases. apply in_flat_map.
    exists (turn_lane, turn_type, turning). split; [exact Hturn|].
    destruct Hst as [-> | ->]; [by left | right; by left].
  - eapply rescaled_types; [exact Hr2|].
    change (Forall (λ ph, phase_type ph = THROUGH)
              (through_phases (config c0) (sorted_desc snd gts2)
               ++ pedestrian_phases [] ++ turn_phases (config c0) [])%list).
    simpl. rewrite app_nil_r. apply through_phases_type.
Qed.

Lemma requests_served_once_witness :
  ∃ plan1 c1 plan2 c2,
    allocate_time
      (add_turn_phase (add_pedestrian_phase default_controller "zebra" 4)
         "north_left" PROTECTED_LEFT 2)
      north_south 0 0 = Ok (plan1, c1)
    ∧ allocate_time c1 north_south 100 100 = Ok (plan2, c2)
    ∧ (∃ ph, ph ∈ phases plan1 ∧ phase_type ph = PEDESTRIAN
             ∧ lanes ph = ["zebra"] ∧ state ph = GREEN)
    ∧ Forall (λ ph, phase_type ph = THROUGH) (phases plan2).
Proof.
  assert (He : existsb (λ p : string * LaneData, has_emergency p.2)
                 north_south = false) by reflexivity.
  destruct (allocate_time
              (add_turn_phase
                 (add_pedestrian_phase default_controller "zebra" 4)
                 "north_left" PROTECTED_LEFT 2)
              north_south 0 0) as [[plan1 c1]|e] eqn:E1;
    [|by vm_compute in E1].
  destruct (allocate_time c1 north_south 100 100) as [[plan2 c2]|e] eqn:E2.
  - exists plan1, c1, plan2, c2.
    destruct (requests_served_once _ _ _ _ _ _ _ _ _ _ _ _ _ _ _ _
                He He E1 E2) as (Hp & _ & Hall).
    split; [reflexivity|]. split; [exact E2|]. split; [exact Hp|].
    exact Hall.
  - exfalso. vm_compute in E1. injection E1 as _ <-. by vm_compute in E2.
Defined.

Module NetworkFacts.
Import Coordinator NetworkInputs.

Lemma visit_connections_inv (m : t) (ref : string)
    (travel_times : gmap (string * string) Q) (current : string)
    (current_offset : Q) (conns : list (string * string)) :
  (0 < cycle_time_of m current)%Q →
  conns ⊆ connections (network_config m) →
  ∀ st, bfs_inv m ref st →
    ∃ st', visit_connections travel_times current current_offset
             (cycle_time_of m current) conns st = Ok st'
           ∧ bfs_inv m ref st'.
Proof.
  intros Hc. induction conns as [|[from_id to_id] rest IH]; intros Hsub st Hinv.
  - by exists st.
  - assert (Hrest : rest ⊆ connections (network_config m)).
    { intros p Hp. apply Hsub. by right. }
    simpl. destruct (decide _) as [[-> Hnew]|_]; [|by apply IH].
    destruct (PyFloat.eqb (cycle_time_of m current) 0) eqn:E0.
    { apply PyFloatFacts.eqb_eq in E0. rewrite E0 in Hc. lra. }
    apply IH; [done|].
    destruct Hinv as (Href & Hproc & Hq & Hok).
    assert (Hne : to_id ≠ ref) by (intros ->; done).
    repeat split; simpl.
    + by rewrite lookup_insert_ne.
    + set_solver.
    + apply Forall_app. split.
      * eapply Forall_impl; [exact Hq|]. intros q Hq'. simpl in *.
        rewrite lookup_insert_is_Some. destruct (decide (to_id = q)); eauto.
      * constructor; [|constructor]. by rewrite lookup_insert_eq.
    + apply map_Forall_insert_2; [|done]. right. exists current. split.
      * apply Hsub. left.
      * by apply OffsetFacts.fmod_range.
Qed.

Lemma bfs_inv_result (m : t) (ref : string)
    (travel_times : gmap (string * string) Q) (fuel : nat) :
  (∀ iid, (0 < cycle_time_of m iid)%Q) →
  ∀ st, pending (connections (network_config m)) st ≤ fuel →
    bfs_inv m ref st →
    ∃ st', bfs m travel_times fuel st = Some (Ok st') ∧ bfs_inv m ref st'.
Proof.
  intros Hc. induction fuel as [|fuel IH]; intros st Hfuel Hinv.
  - destruct st as [o p [|current rest]]; simpl; [eauto|].
    unfold pending in Hfuel. simpl in Hfuel. lia.
  - destruct st as [o p [|current rest]]; simpl; [eauto|].
    destruct Hinv as (Href & Hproc & Hq & Hok). simpl in *.
    inversion Hq as [|? ? [off Hoff] Hrest]; subst. rewrite Hoff.
    destruct (visit_connections_inv m ref travel_times current off
                (connections (network_config m)) (Hc current)
                ltac:(done) (mkBfs o p rest)) as (st' & Hv & Hinv').
    { by repeat split. }
    rewrite Hv. apply IH; [|done].
    apply (OffsetFacts.visit_connections_pending
             (connections (network_config m))) in Hv; [|done].
    rewrite Hv. unfold pending in *. simpl in *. lia.
Qed.

Lemma fill_unprocessed_spec (ids : list string) : ∀ (o : gmap string Q),
  (∀ i x, o !! i = Some x → fill_unprocessed ids o !! i = Some x)
  ∧ (∀ i, i ∈ ids → is_Some (fill_unprocessed ids o !! i))
  ∧ (∀ i x, fill_unprocessed ids o !! i = Some x →
            o !! i = Some x ∨ x = 0%Q).
Proof.
  unfold fill_unprocessed.
  induction ids as [|iid ids IH]; intros o; simpl.
  - split; [done|]. split; [by intros i Hi; inversion Hi | by left].
  - set (o' := match o !! iid with Some _ => o | None => <[iid:=0%Q]> o end).
    destruct (IH o') as (Hkeep & Hall & Hnew).
    assert (Hext : ∀ i x, o !! i = Some x → o' !! i = Some x).
    { intros i x Hi. unfold o'. destruct (o !! iid) eqn:E; [done|].
      rewrite lookup_insert_ne; [done|]. intros ->. congruence. }
    assert (Hiid : is_Some (o' !! iid)).
    { unfold o'. destruct (o !! iid) eqn:E; [by rewrite E|].
      rewrite lookup_insert_eq. eauto. }
    split; [|split].
    + intros i x Hi. by apply Hkeep, Hext.
    + intros i Hi. apply elem_of_cons in Hi as [->|Hi]; [|by apply Hall].
      destruct Hiid as [x Hx]. exists x. by apply Hkeep.
    + intros i x Hi. apply Hnew in Hi as [Hi|Hi]; [|by right].
      unfold o' in Hi. destruct (o !! iid) eqn:E; [by left|].
      destruct (decide (iid = i)) as [->|Hne].
      * rewrite lookup_insert_eq in Hi. right. congruence.
      * rewrite lookup_insert_ne in Hi by done. by left.
Qed.

(** X13. When every cycle time in use is positive, [calculate_offsets]
    returns (its loop ends and nothing raises), every configured
    intersection has an offset, the reference intersection (the first
    one) has offset 0, and every offset is 0 or lies in [[0, C)] for the
    cycle time [C] of an intersection with a connection to it. *)
Theorem calculate_offsets_total (m : t)
    (travel_times : gmap (string * string) Q) :
  (∀ iid, (0 < cycle_time_of m iid)%Q) →
  ∃ o m',
    calculate_offsets m travel_times = Some (Ok (o, m'))
    ∧ (∀ iid, iid ∈ intersections (network_config m) → is_Some (o !! iid))
    ∧ (∀ ref, head (intersections (network_config m)) = Some ref →
              o !! ref = Some 0%Q)
    ∧ map_Forall (offset_ok m) o.
Proof.
  intros Hc. unfold calculate_offsets.
  destruct (decide (travel_times = ∅)) as [_|_].
  - eexists _, _. split; [done|].
    assert (Hzero : ∀ i x,
              (list_to_map ((λ iid, (iid, 0%Q))
                            <$> intersections (network_config m))
               : gmap string Q) !! i = Some x → x = 0%Q).
    { intros i x Hi. apply elem_of_list_to_map_2 in Hi.
      apply list_elem_of_fmap in Hi as (? & [= _ ->] & _). done. }
    split; [|split].
    + intros iid Hi.
      destruct (list_to_map _ !! iid) as [x|] eqn:E; [eauto|].
      apply not_elem_of_list_to_map in E. exfalso. apply E.
      rewrite <- list_fmap_compose. apply list_elem_of_fmap. by exists iid.
    + intros ref Href.
      destruct (intersections (network_config m)) as [|r ids]; [done|].
      injection Href as ->. simpl. by rewrite lookup_insert_eq.
    + intros i x Hi. left. by eapply Hzero.
  - destruct (intersections (network_config m)) as [|ref ids] eqn:Hids.
    { eexists _, _. split; [done|]. split; [by intros ? H; inversion H|].
      split; [done | apply map_Forall_empty]. }
    set (st := mkBfs _ _ _).
    destruct (bfs_inv_result m ref travel_times
                (S (length (connections (network_config m)))) Hc st)
      as (st' & Hbfs & Href & _ & _ & Hok).
    { unfold pending, st. simpl.
      assert (H1 : size (targets (connections (network_config m)) ∖ {[ref]})
                   ≤ size (targets (connections (network_config m))))
        by (apply subseteq_size, subseteq_difference_l; done).
      assert (H2 : size (targets (connections (network_config m)))
                   ≤ length (connections (network_config m))).
      { unfold targets.
        rewrite <- (length_fmap snd (connections (network_config m))).
        apply OffsetFacts.size_list_to_set_le. }
      lia. }
    { unfold st. repeat split; simpl.
      - by rewrite lookup_singleton_eq.
      - by apply elem_of_singleton.
      - constructor; [|constructor]. rewrite lookup_singleton_eq. eauto.
      - apply map_Forall_singleton. by left. }
    rewrite Hbfs.
    destruct (fill_unprocessed_spec (ref :: ids) (offsets st'))
      as (Hkeep & Hall & Hnew).
    eexists _, _. split; [done|]. split; [done|]. split.
    + intros r [= <-]. by apply Hkeep.
    + intros i x Hi. apply Hnew in Hi as [Hi| ->]; [by eapply Hok | by left].
Qed.

Lemma uneven_network_cycles (iid : string) :
  (0 < cycle_time_of uneven_network iid)%Q.
Proof.
  unfold cycle_time_of, uneven_network.
  cbn [_controllers set_controllers].
  destruct (decide (iid = "A")) as [->|HA]; [by vm_compute|].
  rewrite lookup_insert_ne by done.
  destruct (decide (iid = "B")) as [->|HB]; [by vm_compute|].
  rewrite lookup_singleton_ne by done. by vm_compute.
Qed.

Lemma calculate_offsets_total_witness :
  ∃ o m',
    calculate_offsets uneven_network {[ ("A", "B") := 70%Q ]}
    = Some (Ok (o, m'))
    ∧ o !! "A" = Some 0%Q ∧ is_Some (o !! "B").
Proof.
  destruct (calculate_offsets_total uneven_network {[ ("A", "B") := 70%Q ]}
              uneven_network_cycles) as (o & m' & Hcalc & Hall & Href & _).
  exists o, m'. split; [exact Hcalc|]. split.
  - by apply Href.
  - apply Hall. right. left.
Defined.

(** X14. Without travel times [calculate_offsets] answers 0 for exactly
    the configured intersections and stores nothing: the coordinator,
    with the offsets it held before, is unchanged. *)
Theorem calculate_offsets_no_travel_times (m : t) :
  ∃ o, calculate_offsets m ∅ = Some (Ok (o, m))
       ∧ ∀ iid, o !! iid
                = if decide (iid ∈ intersections (network_config m))
                  then Some 0%Q else None.
Proof.
  unfold calculate_offsets. rewrite decide_True by done.
  eexists. split; [done|]. intros iid.
  destruct (decide _) as [Hin|Hout].
  - destruct (list_to_map _ !! iid) as [x|] eqn:E.
    + apply elem_of_list_to_map_2 in E.
      apply list_elem_of_fmap in E as (? & [= _ ->] & _). done.
    + apply not_elem_of_list_to_map in E. exfalso. apply E.
      rewrite <- list_fmap_compose. apply list_elem_of_fmap. by exists iid.
  - apply not_elem_of_list_to_map. rewrite <- list_fmap_compose.
    intros Hin. apply Hout.
    apply list_elem_of_fmap in Hin as (i & -> & Hi). done.
Qed.

(** X15. A cycle time of 0 at the upstream intersection makes the offset
    of its neighbour a division by zero: for a two-intersection network
    with the connection A→B, [calculate_offsets] raises
    [ZeroDivisionError]. *)
Theorem calculate_offsets_zero_cycle (m : t) (A B : string) (T : Q) :
  two_nodes m A B →
  (cycle_time_of m A == 0)%Q →
  calculate_offsets m {[ (A, B) := T ]} = Some (Raise ZeroDivisionError).
Proof.
  intros (Hne & Hint & Hconn) Hzero. apply PyFloatFacts.eqb_eq in Hzero.
  unfold calculate_offsets.
  rewrite decide_False by apply map_non_empty_singleton.
  rewrite Hint, Hconn. simpl.
  rewrite lookup_singleton_eq. rewrite Hconn. simpl.
  rewrite decide_True by (split; [done | set_solver]).
  by rewrite Hzero.
Qed.

Lemma calculate_offsets_zero_cycle_witness :
  calculate_offsets stalled_network {[ ("A", "B") := 70%Q ]}
  = Some (Raise ZeroDivisionError).
Proof.
  apply (calculate_offsets_zero_cycle stalled_network "A" "B" 70).
  - by repeat split.
  - by vm_compute.
Defined.

Lemma register_intersection_spec (m : t) (iid : string)
    (controller : controller_view) :
  (iid ∉ intersections (network_config m) →
   register_intersection m iid controller = Raise ValueError)
  ∧ (iid ∈ intersections (network_config m) →
     ∃ m', register_intersection m iid controller = Ok m'
           ∧ _controllers m' = <[iid := controller]> (_controllers m)
           ∧ _offsets m' !! iid = Some (default 0%Q (_offsets m !! iid))
           ∧ ∀ j, j ≠ iid → _offsets m' !! j = _offsets m !! j).
Proof.
  unfold register_intersection. split; intros Hin.
  - by rewrite decide_False.
  - rewrite decide_True by done. simpl.
    destruct (_offsets m !! iid) as [x|] eqn:E.
    + eexists. split; [done|]. simpl. by rewrite E.
    + eexists. split; [done|]. simpl. rewrite lookup_insert_eq.
      split; [done|]. split; [done|].
      intros j Hj. by rewrite lookup_insert_ne.
Qed.

(** X16. Offsets computed from travel times survive a later
    registration: after [calculate_offsets] has returned [o] for a
    non-empty [travel_times], [register_intersection] of a configured id
    succeeds, stores the controller and leaves the stored offsets equal to
    [o]; for an id that is not configured it raises [ValueError]. *)
Theorem register_keeps_calculated_offsets (m m' : t)
    (travel_times : gmap (string * string) Q) (o : gmap string Q)
    (iid : string) (controller : controller_view) :
  travel_times ≠ ∅ →
  calculate_offsets m travel_times = Some (Ok (o, m')) →
  (iid ∉ intersections (network_config m) →
   register_intersection m' iid controller = Raise ValueError)
  ∧ (iid ∈ intersections (network_config m) →
     ∃ m'', register_intersection m' iid controller = Ok m''
            ∧ _offsets m'' = o
            ∧ _controllers m'' = <[iid := controller]> (_controllers m)).
Proof.
  intros Hne Hcalc. unfold calculate_offsets in Hcalc.
  rewrite decide_False in Hcalc by done.
  destruct (intersections (network_config m)) as [|ref ids] eqn:Hids.
  - injection Hcalc as <- <-. split; intros Hin.
    + apply register_intersection_spec. by rewrite Hids.
    + by inversion Hin.
  - destruct (bfs _ _ _ _) as [[st'|e]|]; [|done..].
    destruct (fill_unprocessed_spec (ref :: ids) (offsets st'))
      as (_ & Hall & _).
    cbv zeta in Hcalc.
    generalize dependent (fill_unprocessed (ref :: ids) (offsets st')).
    intros o' Hcalc Hall. injection Hcalc as <- <-.
    split; intros Hin.
    + apply register_intersection_spec.
      cbn [set_offsets network_config]. by rewrite Hids.
    + destruct (register_intersection_spec (set_offsets o' m) iid controller)
        as (_ & m'' & Hreg & Hctl & Hoff & Hother);
        [cbn [set_offsets network_config]; by rewrite Hids|].
      exists m''. split; [done|]. split; [|exact Hctl].
      destruct (Hall iid Hin) as [x Hx].
      apply map_eq. intros j. destruct (decide (j = iid)) as [->|Hj].
      * rewrite Hoff. cbn [set_offsets _offsets]. by rewrite Hx.
      * by rewrite Hother.
Qed.

Lemma register_keeps_calculated_offsets_witness :
  ∃ o m' m'',
    calculate_offsets uneven_network {[ ("A", "B") := 70%Q ]}
    = Some (Ok (o, m'))
    ∧ register_intersection m' "B" NoConfig = Ok m''
    ∧ _offsets m'' = o.
Proof.
  assert (Htwo : two_nodes uneven_network "A" "B") by (by repeat split).
  assert (Hc : (0 < cycle_time_of uneven_network "A")%Q) by (by vm_compute).
  pose proof (OffsetFacts.two_node_offsets_eval uneven_network "A" "B" 70
                Htwo Hc) as Hcalc.
  cbv zeta in Hcalc. eexists _, _.
  destruct (register_keeps_calculated_offsets _ _ _ _ "B" NoConfig
              (map_non_empty_singleton _ _) Hcalc) as (_ & Hreg).
  destruct Hreg as (m'' & Hreg & Hoff & _); [right; left|].
  exists m''. split; [exact Hcalc|]. split; [exact Hreg | exact Hoff].
Defined.

Lemma record_totals (l : list (Q * Z)) : ∀ m,
  _vehicle_count (record_samples m l)
  = (_vehicle_count m + Z.of_nat (length l))%Z
  ∧ _total_vehicles_processed (record_samples m l)
    = (_total_vehicles_processed m + Z.of_nat (length l))%Z
  ∧ _total_stops (record_samples m l)
    = (_total_stops m + foldr Z.add 0 l.*2)%Z
  ∧ (_total_travel_time (record_samples m l)
     == _total_travel_time m + foldr Qplus 0 l.*1)%Q.
Proof.
  unfold record_samples. induction l as [|[tt stops] l IH]; intros m.
  - simpl. repeat split; try lia. ring.
  - cbn [foldl fst snd].
    destruct (IH (update_metrics m tt stops)) as (Hv & Hp & Hs & Ht).
    rewrite !fmap_cons, length_cons, Nat2Z.inj_succ. cbn [foldr fst snd].
    split; [rewrite Hv; cbn [update_metrics _vehicle_count]; lia|].
    split; [rewrite Hp; cbn [update_metrics _total_vehicles_processed]; lia|].
    split; [rewrite Hs; cbn [update_metrics _total_stops]; lia|].
    rewrite Ht. cbn [update_metrics _total_travel_time]. ring.
Qed.

(** X17. After [reset_metrics], recording the samples of a non-empty
    list gives: throughput the number of samples, stops per vehicle the
    sum of the stops over that number, and average travel time the sum of
    the travel times over it. *)
Theorem metrics_of_samples (m : t) (l : list (Q * Z)) :
  l ≠ [] →
  let r := get_network_metrics (record_samples (reset_metrics m) l) in
  total_throughput r = Z.of_nat (length l)
  ∧ (stops_per_vehicle r
     == inject_Z (foldr Z.add 0%Z l.*2) / inject_Z (Z.of_nat (length l)))%Q
  ∧ (average_travel_time r
     == foldr Qplus 0 l.*1 / inject_Z (Z.of_nat (length l)))%Q.
Proof.
  intros Hne r.
  destruct (record_totals l (reset_metrics m)) as (Hv & Hp & Hs & Ht).
  cbn [reset_metrics _vehicle_count _total_vehicles_processed _total_stops
       _total_travel_time] in Hv, Hp, Hs, Ht.
  rewrite Z.add_0_l in Hv, Hp, Hs.
  assert (Hpos : (0 <? Z.of_nat (length l))%Z = true).
  { apply Z.ltb_lt. destruct l; [done | simpl; lia]. }
  unfold r, get_network_metrics.
  cbn [average_travel_time stops_per_vehicle total_throughput].
  rewrite Hv, Hp, Hs, Hpos.
  split; [done|]. split; [reflexivity|].
  apply Qdiv_comp; [rewrite Ht; ring | reflexivity].
Qed.

Lemma metrics_of_samples_witness :
  let r := get_network_metrics
             (record_samples (reset_metrics (init empty_network))
                [(120, 2%Z); (100, 1%Z)]%Q) in
  total_throughput r = 2%Z ∧ (stops_per_vehicle r == 3 # 2)%Q
  ∧ (average_travel_time r == 110)%Q.
Proof.
  intros r.
  destruct (metrics_of_samples (init empty_network)
              [(120, 2%Z); (100, 1%Z)]%Q ltac:(done)) as (Ht & Hs & Ha).
  split; [exact Ht|]. split.
  - fold r in Hs. rewrite Hs. by vm_compute.
  - fold r in Ha. rewrite Ha. by vm_compute.
Defined.

End NetworkFacts.
